(** * CinebyHub: the incremental synchronisation engine

    A shallow embedding of the parts of [cineby_scraper.py] and [run_all.py]
    that carry the synchronisation logic: the TMDB fetch client with its retry
    loop, the snapshot reader, the incremental page walker, the dedupe/merge
    step of [main], and the row-count change detector with the pipeline cycle
    that saves the baseline.

    Python values are modelled by [pyval]; dictionaries with string keys are
    finite maps [gmap string _]; sets are [gset]; exceptions that the source
    catches or lets escape are explicit results. *)

From stdpp Require Import gmap strings list fin_maps pretty.
From Stdlib Require Import ZArith Lia.

Set Warnings "-clear-no-such-hyp".

(** ** Python values *)

Module Py.

(** The scalar values that travel through the engine: JSON [null] / Python
    [None], integers, and strings.  These are the values an [id] field, a
    spreadsheet cell or a header cell takes. *)
Inductive pyval : Type :=
  | PNone
  | PInt (z : Z)
  | PStr (s : string).

#[global] Instance pyval_eq_dec : EqDecision pyval.
Proof. solve_decision. Defined.

#[global] Instance pyval_countable : Countable pyval.
Proof.
  refine (inj_countable'
    (fun v => match v with
              | PNone => inl ()
              | PInt z => inr (inl z)
              | PStr s => inr (inr s)
              end)
    (fun c => match c with
              | inl _ => PNone
              | inr (inl z) => PInt z
              | inr (inr s) => PStr s
              end) _).
  by intros [].
Defined.

(** Python truthiness: [None], [0] and [""] are falsy. *)
Definition truthy (v : pyval) : bool :=
  match v with
  | PNone => false
  | PInt z => negb (z =? 0)%Z
  | PStr s => negb (String.eqb s "")
  end.

(** [d.get(k)]: [None] when the key is absent. *)
Definition py_get (d : gmap string pyval) (k : string) : pyval :=
  default PNone (d !! k).

(** [d.get(k, dflt)]. *)
Definition py_get_default (d : gmap string pyval) (k : string) (dflt : pyval) : pyval :=
  default dflt (d !! k).

(** [str(v)] on the scalars above. *)
Definition py_str (v : pyval) : string :=
  match v with
  | PNone => "None"
  | PInt z => pretty z
  | PStr s => s
  end.

End Py.

Import Py.

(** A raw TMDB record (one element of a page's ["results"]) and a spreadsheet
    row (a dictionary from column header to cell) are both dictionaries with
    string keys. *)
Abbreviation Item := (gmap string pyval).
Abbreviation Row := (gmap string pyval).

(** ** cineby_scraper.py *)

Module Scraper.

(** The identifier column of the movie, TV and anime sheets. *)
Definition TMDB_ID : string := "TMDB ID".

(** [item.get("id")]. *)
Definition item_id (item : Item) : pyval := py_get item "id".

(** *** [dedupe] (lines 289-297)

<<
    seen = set(); out = []
    for item in items:
        v = item.get(key)
        if v and v not in seen:
            seen.add(v); out.append(item)
    return out
>>
    The loop carries [seen] and [out]. *)
Fixpoint dedupe_loop (key : string) (items : list Item)
    (seen : gset pyval) (out : list Item) : list Item :=
  match items with
  | [] => out
  | item :: rest =>
      let v := py_get item key in
      if truthy v && bool_decide (v ∉ seen)
      then dedupe_loop key rest ({[ v ]} ∪ seen) (out ++ [item])
      else dedupe_loop key rest seen out
  end.

Definition dedupe (items : list Item) (key : string) : list Item :=
  dedupe_loop key items ∅ [].

(** *** [TMDBClient.get] (lines 149-169)

    One page of a paginated endpoint, as the parsed JSON object: the
    ["results"] and ["total_pages"] entries when present, and whether the
    object has any other key (an object with no key at all is falsy). *)
Record Page : Type := mkPage {
  page_results : option (list Item);
  page_total_pages : option Z;
  page_other_keys : bool
}.

(** The [Retry-After] header of a reply, as [int(...)] reads it: absent, the
    text of an integer, or a text [int] rejects (an HTTP date, say).  With
    an integer comes what the clock of the platform makes of a wait of that
    many seconds, should [time.sleep] hand it one: [clock_takes_it] is
    [false] when the system call refuses the wait. *)
Inductive RetryAfter : Type :=
  | NoRetryAfter
  | RetryAfterInt (seconds : Z) (clock_takes_it : bool)
  | RetryAfterOther.

(** The body of a reply, as [resp.json()] reads it: not JSON, or a JSON value
    ([None] is JSON [null]). *)
Inductive Body : Type :=
  | NotJson
  | Json (data : option Page).

(** What one [self.session.get(url, params=params, timeout=15)] yields: a
    [requests.RequestException] (connection error, timeout), or a reply. *)
Inductive Response : Type :=
  | RequestError
  | Reply (status_code : Z) (retry_after : RetryAfter) (body : Body).

(** Exceptions that escape [get]: none of [ValueError], [OverflowError] and
    [OSError] is a [requests.RequestException], so the [except] clause lets
    them through. *)
Inductive exn : Type :=
  | ValueError
  | OverflowError
  | OSError.

Inductive outcome (A : Type) : Type :=
  | Return (a : A)
  | Raise (e : exn).
Arguments Return {A} a.
Arguments Raise {A} e.

(** The observable effects of [get]: requests sent and sleeps taken. *)
Inductive event : Type :=
  | Request
  | Sleep (seconds : Z).

#[global] Instance event_eq_dec : EqDecision event.
Proof. solve_decision. Defined.

(** [resp.raise_for_status()] raises [HTTPError], a [RequestException], on a
    4xx or 5xx status. *)
Definition raise_for_status (status_code : Z) : bool :=
  (400 <=? status_code)%Z && (status_code <? 600)%Z.

(** [time.sleep(wait)] for an integer [wait]: CPython first turns the wait
    into a signed 64-bit count of nanoseconds and raises [OverflowError]
    ("timestamp too large to convert to C _PyTime_t") when it does not fit,
    that is from 9223372037 s on and below -9223372036 s; a negative wait
    that fits raises [ValueError] ("sleep length must be non-negative");
    any other wait goes to the clock of the platform, whose refusal (Linux
    answers [EINVAL] to a deadline beyond its own range) is an [OSError]. *)
Definition NS_PER_SECOND : Z := 1000000000.

Definition PY_TIME_MIN : Z := -9223372036854775808.

Definition PY_TIME_MAX : Z := 9223372036854775807.

Definition time_sleep (wait : Z) (clock_takes_it : bool) : outcome Z :=
  if (wait * NS_PER_SECOND <? PY_TIME_MIN)%Z || (wait * NS_PER_SECOND >? PY_TIME_MAX)%Z
  then Raise OverflowError
  else if (wait <? 0)%Z then Raise ValueError
  else if clock_takes_it then Return wait
  else Raise OSError.

(** [int(resp.headers.get("Retry-After", 5))] followed by [time.sleep(wait)]:
    the seconds slept, or the [ValueError] of [int] on a non-integer text, or
    what [time.sleep] raises on a length it does not take.  The default of
    5 s is a wait every clock takes. *)
Definition retry_wait (h : RetryAfter) : outcome Z :=
  match h with
  | NoRetryAfter => time_sleep 5 true
  | RetryAfterInt n clock_takes_it => time_sleep n clock_takes_it
  | RetryAfterOther => Raise ValueError
  end.

(** The [for attempt in range(3)] loop.  [env attempt] is the response to the
    request sent in iteration [attempt]; [log] collects the effects.  The
    [except requests.RequestException] handler is [on_error]; [resp.json()]
    on a body that is not JSON raises [requests.JSONDecodeError], which is a
    [RequestException] too.  Falling off the loop is the final
    [return None]. *)
Fixpoint get_loop (env : nat → Response) (attempts : list nat) (log : list event)
    : outcome (option Page) * list event :=
  match attempts with
  | [] => (Return None, log)
  | attempt :: rest =>
      let log := log ++ [Request] in
      let on_error :=
        if (attempt =? 2)%nat then (Return None, log)
        else get_loop env rest (log ++ [Sleep (2 ^ Z.of_nat attempt)]) in
      match env attempt with
      | RequestError => on_error
      | Reply status_code retry_after body =>
          if (status_code =? 429)%Z then
            match retry_wait retry_after with
            | Raise e => (Raise e, log)
            | Return wait => get_loop env rest (log ++ [Sleep wait])
            end
          else if raise_for_status status_code then on_error
          else match body with
               | NotJson => on_error
               | Json data => (Return data, log)
               end
      end
  end.

Definition get (env : nat → Response) : outcome (option Page) * list event :=
  get_loop env (seq 0 3) [].

(** The requests sent and the sleeps taken, read off a log. *)
Definition requests_sent (log : list event) : nat :=
  length (filter (λ e, e = Request) log).

Definition sleeps (log : list event) : list Z :=
  omap (λ e, match e with Sleep n => Some n | Request => None end) log.

(** *** [load_existing_rows] (lines 207-238)

    The output file as the reader meets it: absent, present but rejected by
    [load_workbook], or a workbook, i.e. a list of named sheets, each a list
    of rows of cells. *)
Inductive StoreFile : Type :=
  | FileMissing
  | FileUnreadable
  | FileWorkbook (sheets : list (string * list (list pyval))).

(** [os.path.exists(output_path)]. *)
Definition path_exists (f : StoreFile) : bool :=
  match f with
  | FileMissing => false
  | _ => true
  end.

(** The exceptions the body of the [try] can raise; all are subclasses of
    [Exception]. *)
Inductive read_error : Type :=
  | LoadFailed        (* [load_workbook] raised *)
  | KeyError          (* [wb[sheet_name]] on a name the workbook lacks *)
  | StopIteration     (* [next(rows_iter)] on a sheet with no row *)
  | IndexError.       (* [row[id_idx]] on a row shorter than the header *)

(** [wb.sheetnames] and [wb[sheet_name]]. *)
Definition sheetnames (sheets : list (string * list (list pyval))) : list string :=
  fst <$> sheets.

Fixpoint get_sheet (sheets : list (string * list (list pyval))) (name : string)
    : option (list (list pyval)) :=
  match sheets with
  | [] => None
  | (n, rows) :: rest => if decide (n = name) then Some rows else get_sheet rest name
  end.

(** [str(h) if h is not None else ""]. *)
Definition header_name (h : pyval) : string :=
  match h with
  | PNone => ""
  | _ => py_str h
  end.

(** [headers.index(id_col) if id_col in headers else None]. *)
Fixpoint index_of (x : string) (l : list string) : option nat :=
  match l with
  | [] => None
  | y :: rest => if decide (y = x) then Some 0 else S <$> index_of x rest
  end.

(** [dict(zip(headers, row))]: later pairs overwrite earlier ones. *)
Definition dict_zip (headers : list string) (row : list pyval) : Row :=
  foldl (λ d kv, <[ kv.1 := kv.2 ]> d) ∅ (zip headers row).

(** [v if v is not None else ""]. *)
Definition none_to_empty (v : pyval) : pyval :=
  match v with
  | PNone => PStr ""
  | _ => v
  end.

(** The [for row in rows_iter] loop, carrying [data] and [ids]. *)
Fixpoint read_rows (headers : list string) (id_idx : option nat)
    (rows : list (list pyval)) (data : list Row) (ids : gset pyval)
    : read_error + (list Row * gset pyval) :=
  match rows with
  | [] => inr (data, ids)
  | row :: rest =>
      let row_dict := none_to_empty <$> dict_zip headers row in
      let data := data ++ [row_dict] in
      match id_idx with
      | None => read_rows headers id_idx rest data ids
      | Some i =>
          match row !! i with
          | None => inl IndexError
          | Some PNone => read_rows headers id_idx rest data ids
          | Some v => read_rows headers id_idx rest data ({[ v ]} ∪ ids)
          end
      end
  end.

(** The body of the [try]: [inl] is a raised exception, [inr] a [return]. *)
Definition load_existing_rows_body (f : StoreFile) (sheet_name id_col : string)
    : read_error + (list Row * gset pyval) :=
  match f with
  | FileMissing | FileUnreadable => inl LoadFailed
  | FileWorkbook sheets =>
      if decide (sheet_name ∉ sheetnames sheets) then inr ([], ∅)
      else match get_sheet sheets sheet_name with
           | None => inl KeyError
           | Some [] => inl StopIteration
           | Some (header_row :: rows) =>
               let headers := header_name <$> header_row in
               let id_idx := index_of id_col headers in
               read_rows headers id_idx rows [] ∅
           end
  end.

(** [load_existing_rows(output_path, sheet_name, id_col="TMDB ID")]: returns
    [(list_of_dicts, set_of_ids)]; every exception of the body is caught and
    turned into [([], set())]. *)
Definition load_existing_rows (f : StoreFile) (sheet_name id_col : string)
    : list Row * gset pyval :=
  if negb (path_exists f) then ([], ∅)
  else match load_existing_rows_body f sheet_name id_col with
       | inr result => result
       | inl _ => ([], ∅)
       end.

(** *** [fetch_incremental] (lines 241-282)

    [not data]: [None] or an object with no key. *)
Definition falsy_data (data : option Page) : bool :=
  match data with
  | None => true
  | Some d =>
      match page_results d, page_total_pages d, page_other_keys d with
      | None, None, false => true
      | _, _, _ => false
      end
  end.

(** [max_pages and page > max_pages], with [max_pages] an integer or
    [None]. *)
Definition over_budget (max_pages : option Z) (page : Z) : bool :=
  match max_pages with
  | None => false
  | Some m => negb (m =? 0)%Z && (page >? m)%Z
  end.

(** [[r for r in page_results if r.get("id") not in existing_ids]]. *)
Definition new_on_page (existing_ids : gset pyval) (d : Page) : list Item :=
  filter (λ r, item_id r ∉ existing_ids) (default [] (page_results d)).

(** [min(data.get("total_pages", 1), 500)]. *)
Definition capped_total_pages (d : Page) : Z :=
  Z.min (default 1%Z (page_total_pages d)) 500.

(** The effects of the walker: the pages it asks the client for, and the
    [time.sleep(REQUEST_DELAY)] between pages. *)
Inductive walk_event : Type :=
  | Fetch (page : Z)
  | Delay.

(** The [while page <= total_pages] loop.  [client_get page] is the result of
    [client.get(endpoint, {**params, "page": page})]; an exception of the
    client escapes the walker.  The loop carries [page], [total_pages],
    [results] and the trace; [fuel] bounds the iterations ([None] when it
    runs out, which [fetch_incremental_total] shows never happens). *)
Fixpoint fetch_incremental_loop (fuel : nat)
    (client_get : Z → outcome (option Page)) (existing_ids : gset pyval)
    (max_pages : option Z) (page total_pages : Z)
    (results : list Item) (trace : list walk_event)
    : option (outcome (list Item) * list walk_event) :=
  match fuel with
  | O => None
  | S fuel =>
      if negb (page <=? total_pages)%Z then Some (Return results, trace)
      else if over_budget max_pages page then Some (Return results, trace)
      else
        let trace := trace ++ [Fetch page] in
        match client_get page with
        | Raise e => Some (Raise e, trace)
        | Return data =>
            if falsy_data data then Some (Return results, trace)
            else
              match data with
              | None => Some (Return results, trace)
              | Some d =>
                  let total_pages := capped_total_pages d in
                  let new := new_on_page existing_ids d in
                  let results := results ++ new in
                  if (length new =? 0)%nat && (page >? 1)%Z
                  then Some (Return results, trace)
                  else fetch_incremental_loop fuel client_get existing_ids
                         max_pages (page + 1)%Z total_pages results
                         (trace ++ [Delay])
              end
        end
  end.

Definition fetch_incremental (client_get : Z → outcome (option Page))
    (existing_ids : gset pyval) (max_pages : option Z)
    : option (outcome (list Item) * list walk_event) :=
  fetch_incremental_loop 501 client_get existing_ids max_pages 1 1 [] [].

(** The pages a trace asked for. *)
Definition pages_fetched (trace : list walk_event) : list Z :=
  omap (λ e, match e with Fetch p => Some p | Delay => None end) trace.

(** *** [TMDBClient.fetch_all_pages] (lines 171-200)

    The same walk without the known-id filter and without the early stop:
<<
  while page <= total_pages:
      if max_pages and page > max_pages: break
      data = self.get(endpoint, {**(params or {}), "page": page})
      if not data: break
      page_results = data.get("results", [])
      results.extend(page_results)
      total_pages = min(data.get("total_pages", 1), 500)
      page += 1
      time.sleep(REQUEST_DELAY)
>>
*)
Fixpoint fetch_all_pages_loop (fuel : nat)
    (client_get : Z → outcome (option Page)) (max_pages : option Z)
    (page total_pages : Z) (results : list Item) (trace : list walk_event)
    : option (outcome (list Item) * list walk_event) :=
  match fuel with
  | O => None
  | S fuel =>
      if negb (page <=? total_pages)%Z then Some (Return results, trace)
      else if over_budget max_pages page then Some (Return results, trace)
      else
        let trace := trace ++ [Fetch page] in
        match client_get page with
        | Raise e => Some (Raise e, trace)
        | Return data =>
            if falsy_data data then Some (Return results, trace)
            else
              match data with
              | None => Some (Return results, trace)
              | Some d =>
                  let results := results ++ default [] (page_results d) in
                  let total_pages := capped_total_pages d in
                  fetch_all_pages_loop fuel client_get max_pages (page + 1)%Z
                    total_pages results (trace ++ [Delay])
              end
        end
  end.

Definition fetch_all_pages (client_get : Z → outcome (option Page))
    (max_pages : option Z) : option (outcome (list Item) * list walk_event) :=
  fetch_all_pages_loop 501 client_get max_pages 1 1 [] [].

(** [client.get(endpoint, {**params, "page": page})] for the [TMDBClient]:
    [remote page attempt] is the response to the request sent for [page] in
    iteration [attempt] of the retry loop. *)
Definition client_get_of (remote : Z → nat → Response) (page : Z)
    : outcome (option Page) :=
  (get (remote page)).1.

(** [fetch_fn] of [main] (lines 641, 647-648): [fetch_incremental] when the
    run is incremental and the output file exists, otherwise a wrapper that
    drops the known ids and calls [fetch_all_pages]. *)
Definition fetch_fn (incremental : bool)
    (client_get : Z → outcome (option Page)) (ex_ids : gset pyval)
    (mp : option Z) : option (outcome (list Item) * list walk_event) :=
  if incremental then fetch_incremental client_get ex_ids mp
  else fetch_all_pages client_get mp.

(** The loop of [main] over the endpoints of a category (lines 700-711):
<<
  for ep, params, desc in endpoints:
      items = fetch_fn(client, ep, params, ex_movie_ids, pages_to_fetch, desc)
      movie_lists.extend(items)
>>
    An endpoint is given by what the client answers for its pages and by its
    page budget.  An exception of a walk ends the loop (and [main]). *)
Fixpoint fetch_endpoints (incremental : bool) (ex_ids : gset pyval)
    (endpoints : list ((Z → outcome (option Page)) * option Z))
    (lists : list Item) : option (outcome (list Item)) :=
  match endpoints with
  | [] => Some (Return lists)
  | endpoint :: rest =>
      match fetch_fn incremental endpoint.1 ex_ids endpoint.2 with
      | None => None
      | Some (Raise e, _) => Some (Raise e)
      | Some (Return items, _) =>
          fetch_endpoints incremental ex_ids rest (lists ++ items)
      end
  end.

(** The prior state [main] starts a category from (lines 630-646): the
    sheet's rows and ids when [INCREMENTAL_UPDATE] is set and the output file
    exists, nothing otherwise. *)
Definition prior_state (incremental : bool) (f : StoreFile)
    (sheet_name : string) : list Row * gset pyval :=
  if incremental && path_exists f
  then load_existing_rows f sheet_name TMDB_ID
  else ([], ∅).

Section Merge.

(** The descriptive columns that [normalize_movie] / [normalize_tv] compute
    from a raw record (titles, dates, rounded ratings, genre names, URLs).
    No property below depends on them, so they are a parameter; the
    identifier column is set on top of them exactly as the source does. *)
Variable columns : Item → Row.

(** [normalize_movie] / [normalize_tv]: ["TMDB ID": item.get("id", "")]. *)
Definition normalize (item : Item) : Row :=
  <[ TMDB_ID := py_get_default item "id" (PStr "") ]> (columns item).

(** The merge of [main] (lines 713-717, and again 753-756, 801-809):
<<
  new_movies   = dedupe(movie_lists)
  new_mov_data = [normalize_movie(m) for m in new_movies]
  movies_data  = existing_movies + [r for r in new_mov_data
                                    if r["TMDB ID"] not in ex_movie_ids]
>>
    [r["TMDB ID"]] never raises here because [normalize] sets the key. *)
Definition merge (existing : list Row) (ex_ids : gset pyval)
    (fetched : list Item) : list Row :=
  let new_items := dedupe fetched "id" in
  let new_data := normalize <$> new_items in
  existing ++ filter (λ r, py_get r TMDB_ID ∉ ex_ids) new_data.

(** One category of [main]: the rows that go to the sheet, given what the
    descriptors of the category fetched. *)
Definition sync_category (incremental : bool) (f : StoreFile)
    (sheet_name : string) (fetched : list Item) : list Row :=
  let state := prior_state incremental f sheet_name in
  merge state.1 state.2 fetched.

(** One category of [main] from the endpoints on: the prior state, the walk
    of every endpoint, the merge (lines 630-648 and 700-719). *)
Definition main_category (incremental_update : bool) (f : StoreFile)
    (sheet_name : string)
    (endpoints : list ((Z → outcome (option Page)) * option Z))
    : option (outcome (list Row)) :=
  let state := prior_state incremental_update f sheet_name in
  match fetch_endpoints (incremental_update && path_exists f) state.2 endpoints [] with
  | None => None
  | Some (Raise e) => Some (Raise e)
  | Some (Return lists) => Some (Return (merge state.1 state.2 lists))
  end.

End Merge.

(** *** [write_sheet] (lines 489-528)

    The cell values the writer puts on a sheet (fills, fonts, widths and
    hyperlinks left aside): row 1 holds the headers, and the row of
    [row_data] holds [row_data.get(header, "")] under every header. *)
Definition write_sheet (sheet_name : string) (data_rows : list Row)
    (headers : list string) : string * list (list pyval) :=
  (sheet_name,
   (PStr <$> headers)
   :: ((λ row_data, (λ header, py_get_default row_data header (PStr "")) <$> headers)
       <$> data_rows)).

(** *** The channels of [fetch_networks] and [main] (lines 394-412, 817-820)

    The identifier column of the channels sheet. *)
Definition NETWORK_ID : string := "Network ID".

(** The record [fetch_networks] builds from the object [data] that the
    client returned for network [nid] (lines 401-409); an f-string renders a
    value with [str]. *)
Definition network_record (nid : pyval) (data : Item) : Row :=
  {[ "Network ID" := py_get_default data "id" (PStr "");
     "Name" := py_get_default data "name" (PStr "");
     "Country" := py_get_default data "origin_country" (PStr "");
     "Logo" := (if truthy (py_get data "logo_path")
                then PStr ("https://image.tmdb.org/t/p/w185"
                           +:+ py_str (py_get_default data "logo_path" (PStr "")))
                else PStr "");
     "Headquarters" := py_get_default data "headquarters" (PStr "");
     "Homepage" := py_get_default data "homepage" (PStr "");
     "TMDB Page" := PStr ("https://www.themoviedb.org/network/" +:+ py_str nid) ]}.

(** The detail loop of [fetch_networks] (lines 396-410), over the network
    ids in the order the set yields them:
<<
  for nid in tqdm(network_ids, ...):
      if nid is None: continue
      data = client.get(f"/network/{nid}")
      if data and data.get("id"):
          detailed.append({...})
      time.sleep(REQUEST_DELAY)
>>
    [client_get nid] is the result of [client.get(f"/network/{nid}")]. *)
Fixpoint network_details (client_get : pyval → outcome (option Item))
    (network_ids : list pyval) (detailed : list Row) : outcome (list Row) :=
  match network_ids with
  | [] => Return detailed
  | nid :: rest =>
      match nid with
      | PNone => network_details client_get rest detailed
      | _ =>
          match client_get nid with
          | Raise e => Raise e
          | Return data =>
              match data with
              | Some d =>
                  if negb (bool_decide (d = ∅)) && truthy (py_get d "id")
                  then network_details client_get rest (detailed ++ [network_record nid d])
                  else network_details client_get rest detailed
              | None => network_details client_get rest detailed
              end
          end
      end
  end.

(** The prior state of the channels sheet (lines 636-637, 645-646): read with
    [id_col="Network ID"]. *)
Definition prior_channels (incremental : bool) (f : StoreFile)
    (sheet_name : string) : list Row * gset pyval :=
  if incremental && path_exists f
  then load_existing_rows f sheet_name NETWORK_ID
  else ([], ∅).

(** The merge of the channels in [main] (lines 819-820):
<<
  channels_data = existing_ch + [c for c in new_channels
                                  if c["Network ID"] not in ex_ch_ids]
>>
    [c["Network ID"]] never raises on the records of [network_details],
    which all carry the key. *)
Definition merge_channels (existing_ch : list Row) (ex_ch_ids : gset pyval)
    (new_channels : list Row) : list Row :=
  existing_ch ++ filter (λ c, py_get c NETWORK_ID ∉ ex_ch_ids) new_channels.

End Scraper.

(** ** run_all.py *)

Module Runner.

Local Open Scope Z_scope.

(** [public/_checkpoints/row_counts.json] as [_load_row_counts] meets it:
    absent, present but not parseable, or holding a map from sheet name to
    row count. *)
Inductive CountFile : Type :=
  | CountsMissing
  | CountsCorrupt
  | CountsStored (counts : gmap string Z).

(** [cineby_content.xlsx] as [_count_excel_rows] meets it: absent, rejected
    by [load_workbook], or a list of sheets, each with its [ws.max_row]
    ([None] when a read-only sheet carries no dimension). *)
Inductive ExcelFile : Type :=
  | ExcelMissing
  | ExcelUnreadable
  | ExcelSheets (sheets : list (string * option Z)).

(** [_load_row_counts] (lines 79-86): the stored map, [{}] when the file is
    absent or cannot be parsed. *)
Definition _load_row_counts (f : CountFile) : gmap string Z :=
  match f with
  | CountsStored counts => counts
  | CountsMissing | CountsCorrupt => ∅
  end.

(** [_save_row_counts] (lines 89-94). *)
Definition _save_row_counts (counts : gmap string Z) : CountFile :=
  CountsStored counts.

(** [ws.max_row or 1]. *)
Definition max_row_or_1 (max_row : option Z) : Z :=
  match max_row with
  | None => 1
  | Some n => if n =? 0 then 1 else n
  end.

(** [_count_excel_rows] (lines 97-114): [counts[name] = max(0, (ws.max_row
    or 1) - 1)] for every sheet; [{}] when the workbook cannot be read. *)
Definition _count_excel_rows (x : ExcelFile) : gmap string Z :=
  match x with
  | ExcelSheets sheets =>
      foldl (λ counts sheet, <[ sheet.1 := Z.max 0 (max_row_or_1 sheet.2 - 1) ]> counts)
            ∅ sheets
  | ExcelMissing | ExcelUnreadable => ∅
  end.

(** The comparison loop of [detect_new_rows] (lines 132-140):
<<
    has_new = False
    for sheet, count in new_counts.items():
        prev = old_counts.get(sheet, 0)
        if count > prev: has_new = True
>>
    The flag is only ever raised, so the order of the items is immaterial. *)
Definition compare_counts (old_counts new_counts : gmap string Z) : bool :=
  foldl (λ has_new item,
           let prev := default 0 (old_counts !! item.1) in
           if item.2 >? prev then true else has_new)
        false (map_to_list new_counts).

(** The decision of [detect_new_rows] on the two maps (lines 127-142):
    [if not old_counts: return True, ...]. *)
Definition has_new_rows (old_counts new_counts : gmap string Z) : bool :=
  if bool_decide (old_counts = ∅) then true
  else compare_counts old_counts new_counts.

(** The number [run_pipeline_cycle] reports before it starts the link
    generator (lines 274-277):
<<
  total_new_rows = sum(max(0, new_counts.get(s, 0) - old_counts.get(s, 0))
                       for s in new_counts)
>>
*)
Definition total_new_rows (old_counts new_counts : gmap string Z) : Z :=
  foldr (λ item acc, Z.max 0 (item.2 - default 0 (old_counts !! item.1)) + acc)
        0 (map_to_list new_counts).

(** [detect_new_rows] (lines 117-142): [(has_new_rows, old_counts,
    new_counts)]. *)
Definition detect_new_rows (f : CountFile) (x : ExcelFile)
    : bool * gmap string Z * gmap string Z :=
  let old_counts := _load_row_counts f in
  let new_counts := _count_excel_rows x in
  (has_new_rows old_counts new_counts, old_counts, new_counts).

(** The command-line flags [run_pipeline_cycle] reads. *)
Record Args : Type := mkArgs {
  no_scrape : bool;
  web_only : bool;
  skip_lv_only : bool;
  skip_lv : bool;
  force_lv : bool
}.

(** The files the cycle reads and writes. *)
Record World : Type := mkWorld {
  source_excel : ExcelFile;
  row_count_file : CountFile
}.

(** [SOURCE_EXCEL.exists()]. *)
Definition excel_exists (x : ExcelFile) : bool :=
  match x with
  | ExcelMissing => false
  | _ => true
  end.

Section Cycle.

(** [run_script("cineby_scraper.py", ...)] and
    [run_script("linkvertise_api_lite.py", ...)]: whether the script
    succeeded, and the files as it leaves them. *)
Variable scraper : World → bool * World.
Variable linkvertise : World → bool * World.

(** Step 1 of [run_pipeline_cycle] (lines 244-253): the scraper runs unless
    a flag skips it. *)
Definition scrape_step (args : Args) (w : World) : bool * World :=
  if negb (no_scrape args) && negb (web_only args) && negb (skip_lv_only args)
  then scraper w
  else (true, w).

(** [run_pipeline_cycle] (lines 227-292). *)
Definition run_pipeline_cycle (args : Args) (w : World) : World :=
  let step1 := scrape_step args w in
  let w := step1.2 in
  if negb step1.1 then w                                 (* scraper failed *)
  else if skip_lv args || web_only args then w           (* disabled by flag *)
  else if negb (excel_exists (source_excel w)) then w    (* no source Excel *)
  else
    let detected := detect_new_rows (row_count_file w) (source_excel w) in
    let has_new := detected.1.1 in
    let new_counts := detected.2 in
    if has_new || force_lv args then
      let w := (linkvertise w).2 in
      mkWorld (source_excel w) (_save_row_counts new_counts)
    else
      mkWorld (source_excel w) (_save_row_counts new_counts).

End Cycle.

End Runner.

(** ** Reading of the specification's fetch-client contract

    The definitions of this section follow the words of the specification, to
    be compared with [Scraper.get]. *)

Module ClientSpec.

Import Scraper.

(** "any other request failure (network error, non-2xx, non-429)": the
    responses that [get] handles in its [except] clause, i.e. a request
    error, a 4xx/5xx status other than 429, or a body that is not JSON. *)
Definition failed (r : Response) : Prop :=
  match r with
  | RequestError => True
  | Reply status_code _ body =>
      status_code ≠ 429%Z ∧ (raise_for_status status_code = true ∨ body = NotJson)
  end.

(** "On HTTP 429 ... retries the same request without consuming a
    retry-count slot": the loop of [get] in which a 429 reply leaves the
    attempt counter where it is.  [sent] counts the requests, [attempt] the
    slots used; [fuel] bounds the run. *)
Fixpoint get_as_specified (fuel : nat) (env : nat → Response) (sent attempt : nat)
    (log : list event) : option (outcome (option Page) * list event) :=
  match fuel with
  | O => None
  | S fuel =>
      if (3 <=? attempt)%nat then Some (Return None, log)
      else
        let log := log ++ [Request] in
        let on_error :=
          if (attempt =? 2)%nat then Some (Return None, log)
          else get_as_specified fuel env (S sent) (S attempt)
                 (log ++ [Sleep (2 ^ Z.of_nat attempt)]) in
        match env sent with
        | RequestError => on_error
        | Reply status_code retry_after body =>
            if (status_code =? 429)%Z then
              match retry_wait retry_after with
              | Raise e => Some (Raise e, log)
              | Return wait =>
                  get_as_specified fuel env (S sent) attempt (log ++ [Sleep wait])
              end
            else if raise_for_status status_code then on_error
            else match body with
                 | NotJson => on_error
                 | Json data => Some (Return data, log)
                 end
        end
  end.

(** "exponential backoff (1s, 2s, 4s between attempts)". *)
Definition backoff_as_specified : list Z := [1; 2; 4]%Z.

End ClientSpec.

(** ** Vocabulary for walks of the page walker *)

Module WalkerSpec.

Import Scraper.

(** Page [page] is served with the non-empty object [d] and the walk goes on
    after it: the early-stop test fails (it is page 1, or the page has a new
    record) and the total the page reports admits the next page. *)
Definition continues (client_get : Z → outcome (option Page))
    (existing_ids : gset pyval) (page : Z) (d : Page) : Prop :=
  client_get page = Return (Some d)
  ∧ falsy_data (Some d) = false
  ∧ (page = 1%Z ∨ new_on_page existing_ids d ≠ [])
  ∧ (page + 1 ≤ capped_total_pages d)%Z.

(** Page [page], after page 1, is served with the non-empty object [d] and
    has no record whose id is unknown. *)
Definition fully_known (client_get : Z → outcome (option Page))
    (existing_ids : gset pyval) (page : Z) (d : Page) : Prop :=
  client_get page = Return (Some d)
  ∧ falsy_data (Some d) = false
  ∧ new_on_page existing_ids d = []
  ∧ (1 < page)%Z.

(** The trace of a walk over pages [first], ..., [first + n]: a delay after
    every page but the last. *)
Fixpoint walk_trace (first : Z) (n : nat) : list walk_event :=
  match n with
  | O => [Fetch first]
  | S n => Fetch first :: Delay :: walk_trace (first + 1) n
  end.

End WalkerSpec.

(** ** Reading of the specification's merge contract

    The definitions of this section follow the words of the specification, to
    be compared with [Scraper.dedupe] and [Scraper.merge]. *)

Module MergeSpec.

Import Scraper.

(** "deduplicate by id, keeping first occurrence". *)
Fixpoint first_by_id (items : list Item) : list Item :=
  match items with
  | [] => []
  | x :: rest => x :: filter (λ y, item_id y ≠ item_id x) (first_by_id rest)
  end.

(** "existing records, concatenated with the surviving new records": dedupe by
    id, drop the ids already known, append. *)
Definition merge_as_specified (columns : Item → Row) (existing : list Row)
    (ex_ids : gset pyval) (fetched : list Item) : list Row :=
  existing ++ (normalize columns <$>
                 filter (λ i, item_id i ∉ ex_ids) (first_by_id fetched)).

(** "the number of unique unseen new ids". *)
Definition unique_unseen_ids (ex_ids : gset pyval) (fetched : list Item) : nat :=
  size (list_to_set (item_id <$> fetched) ∖ ex_ids : gset pyval).

(** A record whose [id] is truthy, the only kind [dedupe] lets through. *)
Definition has_id (item : Item) : Prop := truthy (item_id item) = true.

#[global] Instance has_id_dec item : Decision (has_id item).
Proof. unfold has_id. apply _. Defined.

(** The identifier cell of a row, [None] when the column is absent. *)
Definition row_id (r : Row) : pyval := py_get r TMDB_ID.

(** "no two records in a snapshot share an id". *)
Definition unique_ids (rows : list Row) : Prop := NoDup (row_id <$> rows).

(** A header row names column [c] at most once. *)
Definition at_most_once (c : string) (headers : list string) : Prop :=
  ∀ i j, headers !! i = Some c → headers !! j = Some c → i = j.

(** The sheet the reader is pointed at, if any, names the identifier column
    at most once in its header row, as every sheet the writer produces does
    (its header lists are fixed and without repetition). *)
Definition id_column_unambiguous (f : StoreFile) (sheet_name c : string) : Prop :=
  match f with
  | FileWorkbook sheets =>
      match get_sheet sheets sheet_name with
      | Some (header_row :: _) => at_most_once c (header_name <$> header_row)
      | _ => True
      end
  | _ => True
  end.

End MergeSpec.

(** ** Vocabulary for the further properties *)

Module Vocabulary.

Import Scraper.

(** The records page [page] is served with: the ["results"] of the object the
    client returns, nothing when the client returns no object. *)
Definition served (client_get : Z → outcome (option Page)) (page : Z) : list Item :=
  match client_get page with
  | Return (Some d) => default [] (page_results d)
  | _ => []
  end.

(** A number of fetched pages that respects the page budget: it does not
    exceed [max_pages] when [max_pages] is truthy (and is 0 when [max_pages]
    is negative). *)
Definition within_budget (max_pages : option Z) (q : Z) : Prop :=
  ∀ m, max_pages = Some m → m ≠ 0%Z → (q ≤ Z.max 0 m)%Z.

(** The records of page [page] whose id is not known. *)
Definition served_unknown (client_get : Z → outcome (option Page))
    (existing_ids : gset pyval) (page : Z) : list Item :=
  filter (λ i, item_id i ∉ existing_ids) (served client_get page).

(** A reply that cannot make [get] raise: a 429 reply carries no
    [Retry-After] header, or an integer one that [time.sleep] takes (not
    negative, and neither too long for CPython nor refused by the clock of
    the platform). *)
Definition wait_readable (r : Response) : Prop :=
  match r with
  | Reply status_code retry_after _ =>
      status_code = 429%Z → ∃ n, retry_wait retry_after = Return n
  | RequestError => True
  end.

(** The trace of a walk that goes on after each of the pages [first], ...,
    [first + n - 1]. *)
Fixpoint continue_trace (first : Z) (n : nat) : list walk_event :=
  match n with
  | O => []
  | S n => Fetch first :: Delay :: continue_trace (first + 1) n
  end.

(** What a row reads back as: its value under every header, with a missing
    or [None] value read as [""], and no other key. *)
Definition read_back (headers : list string) (row_data : Row) : Row :=
  list_to_map
    ((λ header, (header, none_to_empty (py_get_default row_data header (PStr ""))))
     <$> headers).

(** A saved sheet as the next run opens it: every cell written with value
    [v] reads back as [stored v]. *)
Definition saved (stored : pyval → pyval) (sheet : string * list (list pyval))
    : string * list (list pyval) :=
  (sheet.1, (λ row : list pyval, stored <$> row) <$> sheet.2).

(** The identifier cell of a channel row, [None] when the column is
    absent. *)
Definition channel_id (c : Row) : pyval := py_get c NETWORK_ID.

(** The cells of a written row, as the next run gets them back. *)
Definition cells_back (stored : pyval → pyval) (headers : list string)
    (row_data : Row) : list pyval :=
  stored <$> ((λ header, py_get_default row_data header (PStr "")) <$> headers).

End Vocabulary.

Import Scraper Runner ClientSpec WalkerSpec MergeSpec Vocabulary.

(** ** Sample data

    Small concrete inputs on which the definitions above are run. *)

Definition no_columns : Item → Row := λ _, ∅.

Definition item_of (v : pyval) (title : string) : Item :=
  {[ "id" := v; "title" := PStr title ]}.

Definition row_of (v : pyval) : Row := {[ TMDB_ID := v ]}.

Definition movies_sheet : list (list pyval) :=
  [ [PStr "TMDB ID"; PStr "Title"];
    [PInt 1; PStr "A"];
    [PNone; PStr "B"];
    [PInt 3; PNone] ].

Definition sample_store : StoreFile :=
  FileWorkbook [("Summary", [[PStr "Category"]]); ("Movies", movies_sheet)].

Definition page_of (items : list Item) (total : Z) : Page :=
  mkPage (Some items) (Some total) false.

(** Three 429 replies without a [Retry-After] header, then a success. *)
Definition rate_limited_thrice (attempt : nat) : Response :=
  if (attempt <? 3)%nat then Reply 429 NoRetryAfter NotJson
  else Reply 200 NoRetryAfter (Json (Some (page_of [] 1))).

(** A server that answers every request with 503. *)
Definition always_503 (attempt : nat) : Response :=
  Reply 503 NoRetryAfter NotJson.

Definition known_ids : gset pyval := {[ PInt 1; PInt 2; PInt 3 ]}.

Definition page1 : Page := page_of [item_of (PInt 10) "j"; item_of (PInt 1) "a"] 5.

Definition page2 : Page := page_of [item_of (PInt 2) "b"; item_of (PInt 11) "k"] 5.

Definition page3 : Page := page_of [item_of (PInt 1) "a"; item_of (PInt 2) "b"] 5.

Definition page4 : Page := page_of [item_of (PInt 3) "c"] 5.

Definition page5 : Page := page_of [item_of (PInt 3) "c"; item_of (PInt 1) "a"] 5.

(** Remote pages [new, new, known, known, known]. *)
Definition five_pages (page : Z) : outcome (option Page) :=
  Return (match page with
          | 1 => Some page1
          | 2 => Some page2
          | 3 => Some page3
          | 4 => Some page4
          | 5 => Some page5
          | _ => None
          end%Z).

Definition default_args : Args := mkArgs false false false false false.

Definition failing_scraper (w : World) : bool * World := (false, w).

Definition growing_scraper (w : World) : bool * World :=
  (true, mkWorld (ExcelSheets [("Movies", Some 11%Z)]) (row_count_file w)).

Definition failing_linkvertise (w : World) : bool * World := (false, w).

Definition stale_world : World :=
  mkWorld (ExcelSheets [("Movies", Some 11%Z)]) (CountsStored {[ "Movies" := 5%Z ]}).

(** A 500 reply, then a success on the second attempt. *)
Definition second_try_succeeds (attempt : nat) : Response :=
  match attempt with
  | 0 => Reply 500 NoRetryAfter NotJson
  | _ => Reply 200 NoRetryAfter (Json (Some (page_of [item_of (PInt 7) "g"] 1)))
  end.

(** Two pages, then a page the client cannot fetch. *)
Definition two_pages_then_failure (page : Z) : outcome (option Page) :=
  Return (match page with
          | 1 => Some page1
          | 2 => Some page2
          | _ => None
          end%Z).

Definition sample_headers : list string := ["TMDB ID"; "Title"].

(** A workbook library that gives back every cell as it was written. *)
Definition stored_as_written (v : pyval) : pyval := v.

Definition fetched_batch : list Item :=
  [item_of (PInt 3) "c"; item_of (PInt 4) "d"; item_of (PInt 4) "e"].

(** The workbook after a first run over [sample_store] wrote its movies. *)
Definition sheets_after_first_run : list (string * list (list pyval)) :=
  [saved stored_as_written
     (write_sheet "Movies"
        (sync_category no_columns true sample_store "Movies" fetched_batch)
        sample_headers)].

(** A remote that answers every network id with the object of network 7. *)
Definition same_id_remote (nid : pyval) : outcome (option Item) :=
  Return (Some {[ "id" := PInt 7 ]}).

(** A workbook whose movie sheet names the identifier column twice. *)
Definition doubled_header_store : StoreFile :=
  FileWorkbook
    [("Movies", [ [PStr "TMDB ID"; PStr "TMDB ID"];
                  [PInt 1; PInt 2];
                  [PInt 2; PInt 3] ])].

(** A remote that answers a network id with an object carrying that id. *)
Definition echo_remote (nid : pyval) : outcome (option Item) :=
  Return (Some {[ "id" := nid ]}).

Definition visited_networks : list pyval := [PInt 213; PNone; PInt 0; PInt 49].

(** * Facts about [dedupe] and the merge *)

Section MergeFacts.

Implicit Types (items fetched : list Item) (seen ex_ids : gset pyval).

Lemma filter_not_in_union (v : pyval) seen (l : list Item) :
  filter (λ y, item_id y ∉ {[ v ]} ∪ seen) l
  = filter (λ y, item_id y ∉ seen) (filter (λ y, item_id y ≠ v) l).
Proof.
  induction l as [|y l IH]; [done|].
  rewrite !filter_cons.
  destruct (decide (item_id y ≠ v)) as [Hne|Heq].
  - rewrite filter_cons.
    destruct (decide (item_id y ∉ seen)) as [Hs|Hs].
    + rewrite decide_True; [by rewrite IH|].
      rewrite not_elem_of_union, not_elem_of_singleton. done.
    + rewrite decide_False; [done|].
      rewrite not_elem_of_union. tauto.
  - rewrite decide_False; [done|].
    rewrite not_elem_of_union, not_elem_of_singleton. tauto.
Qed.

Lemma filter_not_in_absorb (v : pyval) seen (l : list Item) :
  v ∈ seen →
  filter (λ y, item_id y ∉ seen) (filter (λ y, item_id y ≠ v) l)
  = filter (λ y, item_id y ∉ seen) l.
Proof.
  intros Hv. induction l as [|y l IH]; [done|].
  rewrite !filter_cons.
  destruct (decide (item_id y ≠ v)) as [Hne|Heq].
  - rewrite filter_cons. destruct (decide (item_id y ∉ seen)); by rewrite IH.
  - rewrite decide_False; [done|].
    intros Hn. apply Heq. intros E. apply Hn. by rewrite E.
Qed.

(** The loop invariant of [dedupe]: what is already in [out] stays, and the
    rest of the input contributes the first occurrence of every truthy id not
    yet seen. *)
Lemma dedupe_loop_spec items seen out :
  dedupe_loop "id" items seen out
  = out ++ filter (λ y, item_id y ∉ seen) (first_by_id (filter has_id items)).
Proof.
  revert seen out. induction items as [|x items IH]; intros seen out; simpl.
  - by rewrite app_nil_r.
  - fold (item_id x). rewrite filter_cons.
    destruct (truthy (item_id x)) eqn:Ht; simpl.
    + rewrite decide_True by exact Ht. simpl. rewrite filter_cons.
      case_bool_decide as Hs.
      * rewrite decide_True by exact Hs.
        rewrite IH, filter_not_in_union, <- app_assoc. done.
      * rewrite decide_False by (intros Hn; exact (Hn Hs)).
        rewrite IH. f_equal. symmetry. by apply filter_not_in_absorb.
    + rewrite decide_False by (unfold has_id; congruence). apply IH.
Qed.

Lemma dedupe_first_by_id items :
  dedupe items "id" = first_by_id (filter has_id items).
Proof.
  unfold dedupe. rewrite dedupe_loop_spec. simpl.
  induction (first_by_id (filter has_id items)) as [|y l IH]; [done|].
  rewrite filter_cons, decide_True by set_solver. by rewrite IH.
Qed.

Lemma elem_of_first_by_id items x : x ∈ first_by_id items → x ∈ items.
Proof.
  revert x. induction items as [|y items IH]; intros x; simpl; [done|].
  rewrite !elem_of_cons, list_elem_of_filter. naive_solver.
Qed.

Lemma dedupe_has_id items : Forall has_id (dedupe items "id").
Proof.
  rewrite dedupe_first_by_id. apply Forall_forall. intros x Hx.
  apply elem_of_first_by_id, list_elem_of_filter in Hx. tauto.
Qed.

Lemma NoDup_fmap_filter {A B} (f : A → B) (P : A → Prop)
    `{!∀ x, Decision (P x)} (l : list A) :
  NoDup (f <$> l) → NoDup (f <$> filter P l).
Proof.
  induction l as [|x l IH]; simpl; [done|].
  rewrite NoDup_cons. intros [Hx Hl]. rewrite filter_cons.
  destruct (decide (P x)); [|by apply IH].
  rewrite fmap_cons. apply NoDup_cons. split; [|by apply IH].
  intros Hin. apply Hx. apply list_elem_of_fmap in Hin as (y & -> & Hy).
  apply list_elem_of_filter in Hy as [_ Hy]. by apply list_elem_of_fmap_2.
Qed.

Lemma first_by_id_NoDup items : NoDup (item_id <$> first_by_id items).
Proof.
  induction items as [|x items IH]; simpl; [constructor|].
  apply NoDup_cons. split; [|by apply NoDup_fmap_filter].
  intros Hin. apply list_elem_of_fmap in Hin as (y & Hy & Hin).
  apply list_elem_of_filter in Hin as [Hne _]. by apply Hne.
Qed.

Lemma first_by_id_ids items :
  list_to_set (item_id <$> first_by_id items)
  =@{gset pyval} list_to_set (item_id <$> items).
Proof.
  induction items as [|x items IH]; [done|].
  cbn [first_by_id]. rewrite !fmap_cons, !list_to_set_cons, <- IH.
  apply set_eq. intros v.
  rewrite !elem_of_union, !elem_of_singleton, !elem_of_list_to_set.
  rewrite !list_elem_of_fmap. setoid_rewrite list_elem_of_filter.
  destruct (decide (v = item_id x)); naive_solver.
Qed.

Lemma length_filter_unseen (l : list Item) ex_ids :
  NoDup (item_id <$> l) →
  length (filter (λ i, item_id i ∉ ex_ids) l)
  = size (list_to_set (item_id <$> l) ∖ ex_ids : gset pyval).
Proof.
  induction l as [|x l IH].
  - intros _. rewrite fmap_nil, list_to_set_nil, filter_nil.
    by rewrite difference_disjoint_L, size_empty by apply disjoint_empty_l.
  - rewrite fmap_cons, list_to_set_cons, NoDup_cons. intros [Hx Hl].
    rewrite filter_cons.
    destruct (decide (item_id x ∉ ex_ids)) as [Hn|Hn].
    + rewrite length_cons, IH by done.
      replace (({[item_id x]} ∪ list_to_set (item_id <$> l)) ∖ ex_ids : gset pyval)
        with ({[item_id x]} ∪ (list_to_set (item_id <$> l) ∖ ex_ids) : gset pyval)
        by (apply set_eq; intros v; set_unfold; naive_solver).
      pose proof (size_union (C:=gset pyval) {[item_id x]}
                    (list_to_set (item_id <$> l) ∖ ex_ids)) as Hsize.
      rewrite Hsize.
      * by rewrite (size_singleton (C:=gset pyval)).
      * apply disjoint_singleton_l.
        rewrite elem_of_difference, elem_of_list_to_set. tauto.
    + rewrite IH by done. f_equal. apply dec_stable in Hn.
      apply set_eq. intros v. set_unfold. naive_solver.
Qed.

Lemma filter_none {A} (P : A → Prop) `{!∀ x, Decision (P x)} (l : list A) :
  Forall (λ x, ¬ P x) l → filter P l = [].
Proof.
  induction 1 as [|x l Hx _ IH]; [done|].
  by rewrite filter_cons, decide_False.
Qed.

Section Normalized.

Variable columns : Item → Row.

Lemma row_id_normalize item :
  row_id (normalize columns item) = py_get_default item "id" (PStr "").
Proof. unfold row_id, py_get, normalize. by rewrite lookup_insert_eq. Qed.

Lemma row_id_normalize_has_id item :
  has_id item → row_id (normalize columns item) = item_id item.
Proof.
  rewrite row_id_normalize. unfold has_id, item_id, py_get, py_get_default.
  by destruct (item !! "id").
Qed.

Lemma filter_normalize (l : list Item) ex_ids :
  Forall has_id l →
  filter (λ r, py_get r TMDB_ID ∉ ex_ids) (normalize columns <$> l)
  = normalize columns <$> filter (λ i, item_id i ∉ ex_ids) l.
Proof.
  induction 1 as [|x l Hx _ IH]; [done|].
  rewrite fmap_cons, !filter_cons, IH. fold (row_id (normalize columns x)).
  rewrite (row_id_normalize_has_id x Hx).
  by destruct (decide (item_id x ∉ ex_ids)).
Qed.

(** The merge in closed form: the existing rows, then the normalised first
    occurrences of the truthy, not yet known ids. *)
Lemma merge_closed_form existing ex_ids fetched :
  merge columns existing ex_ids fetched
  = existing ++ (normalize columns <$>
      filter (λ i, item_id i ∉ ex_ids) (first_by_id (filter has_id fetched))).
Proof.
  unfold merge. rewrite filter_normalize by apply dedupe_has_id.
  by rewrite dedupe_first_by_id.
Qed.

End Normalized.

End MergeFacts.

(** * The merge step: claims C4, C6 and C10 *)

Section MergeClaims.

Variable columns : Item → Row.

Lemma dedupe_loop_truthy key items seen out :
  Forall (λ r, truthy (py_get r key) = true) out →
  Forall (λ r, truthy (py_get r key) = true) (dedupe_loop key items seen out).
Proof.
  revert seen out. induction items as [|x items IH]; intros seen out Hout; simpl.
  - done.
  - destruct (truthy (py_get x key)) eqn:Ht; simpl; [|by apply IH].
    case_bool_decide; apply IH; [|done].
    apply Forall_app. split; [done|]. by constructor.
Qed.

Lemma merge_new_rows_truthy existing ex_ids fetched :
  Forall (λ row, truthy (row_id row) = true)
         (drop (length existing) (merge columns existing ex_ids fetched)).
Proof.
  rewrite merge_closed_form, drop_app_length.
  apply Forall_forall. intros row Hrow.
  apply list_elem_of_fmap in Hrow as (i & -> & Hi).
  apply list_elem_of_filter in Hi as [_ Hi].
  apply elem_of_first_by_id, list_elem_of_filter in Hi as [Hid _].
  by rewrite row_id_normalize_has_id.
Qed.

(** C10: [dedupe] drops every record whose id is falsy (absent, [None], [0]
    or the empty string), whatever the key: all records of its output have a
    truthy key value.  Hence the rows the merge appends to the snapshot all
    carry a truthy identifier, and on a first run (no existing rows, no known
    ids) the whole snapshot does. *)
Theorem dedupe_drops_falsy_ids (items : list Item) (key : string) :
  Forall (λ r, truthy (py_get r key) = true) (dedupe items key)
  ∧ (∀ existing ex_ids,
       Forall (λ row, truthy (row_id row) = true)
              (drop (length existing) (merge columns existing ex_ids items)))
  ∧ Forall (λ row, truthy (row_id row) = true) (merge columns [] ∅ items).
Proof.
  split; [|split].
  - by apply dedupe_loop_truthy.
  - intros existing ex_ids. apply merge_new_rows_truthy.
  - apply (merge_new_rows_truthy [] ∅ items).
Qed.

(** C4 (as amended): the merge returns the existing rows, unmodified and in
    order, followed by the normalised fetched records that survive: among the
    fetched records with a truthy id, the first occurrence of each id, in
    first-seen order, except the ids already known.  Its length is
    [len(existing)] plus the number of distinct truthy fetched ids that are
    not known. *)
Theorem merge_existing_then_new existing ex_ids fetched :
  merge columns existing ex_ids fetched
  = existing ++ (normalize columns <$>
      filter (λ i, item_id i ∉ ex_ids) (first_by_id (filter has_id fetched)))
  ∧ length (merge columns existing ex_ids fetched)
    = length existing + unique_unseen_ids ex_ids (filter has_id fetched).
Proof.
  split; [apply merge_closed_form|].
  rewrite merge_closed_form, length_app, length_fmap. f_equal.
  rewrite length_filter_unseen by apply first_by_id_NoDup.
  unfold unique_unseen_ids. by rewrite first_by_id_ids.
Qed.

(** C6: when every fetched record's id is already in the known-id set, the
    merged output is exactly the list of existing rows (same rows, same
    order), so a second run over an unchanged remote leaves the snapshot as
    the first run produced it. *)
Theorem merge_nothing_new existing ex_ids fetched :
  Forall (λ i, item_id i ∈ ex_ids) fetched →
  merge columns existing ex_ids fetched = existing.
Proof.
  intros Hknown. rewrite merge_closed_form.
  rewrite filter_none; [by rewrite app_nil_r|].
  apply Forall_forall. intros i Hi Hnew. apply Hnew.
  apply elem_of_first_by_id, list_elem_of_filter in Hi as [_ Hi].
  by apply (proj1 (Forall_forall _ _) Hknown).
Qed.

End MergeClaims.

(** ** Concrete runs of the merge *)

Example dedupe_keeps_first :
  dedupe [item_of (PInt 7) "a"; item_of (PInt 0) "b"; item_of (PInt 7) "c";
          item_of PNone "d"; item_of (PStr "") "e"; item_of (PInt 8) "f"] "id"
  = [item_of (PInt 7) "a"; item_of (PInt 8) "f"].
Proof. vm_compute. reflexivity. Qed.

(** C4, counterexample: a fetched record with id [0] is not kept as the first
    occurrence of its id; it is dropped, so the output has 0 rows where the
    claim counts [len(existing) + 1]. *)
Lemma merge_drops_id_zero :
  merge no_columns [] ∅ [item_of (PInt 0) "x"] = []
  ∧ merge_as_specified no_columns [] ∅ [item_of (PInt 0) "x"] = [row_of (PInt 0)]
  ∧ unique_unseen_ids ∅ [item_of (PInt 0) "x"] = 1.
Proof. vm_compute. repeat split; reflexivity. Qed.

Lemma merge_nothing_new_witness :
  merge no_columns [row_of (PInt 1); row_of (PInt 2)] {[ PInt 1; PInt 2 ]}
        [item_of (PInt 2) "b"; item_of (PInt 1) "a"; item_of (PInt 2) "c"]
  = [row_of (PInt 1); row_of (PInt 2)].
Proof.
  apply merge_nothing_new.
  repeat constructor; vm_compute; by apply bool_decide_unpack.
Defined.

(** * The snapshot reader: claims C9 and C5 *)

Section ReaderFacts.

Implicit Types (headers : list string) (row : list pyval) (c : string).

Lemma foldl_zip_notin headers row (m : Row) c :
  c ∉ headers →
  foldl (λ d kv, <[ kv.1 := kv.2 ]> d) m (zip headers row) !! c = m !! c.
Proof.
  revert row m. induction headers as [|h headers IH]; intros row m Hc; [done|].
  destruct row as [|x row]; [done|]. simpl.
  apply not_elem_of_cons in Hc as [Hne Hc].
  rewrite IH by done. by rewrite lookup_insert_ne.
Qed.

Lemma foldl_zip_lookup headers row (m : Row) c i v :
  (∀ j, headers !! j = Some c → j = i) →
  headers !! i = Some c → row !! i = Some v →
  foldl (λ d kv, <[ kv.1 := kv.2 ]> d) m (zip headers row) !! c = Some v.
Proof.
  revert row m i. induction headers as [|h headers IH]; intros row m i Huniq Hh Hr.
  - done.
  - destruct row as [|x row]; [done|]. simpl.
    destruct i as [|i]; simpl in *.
    + injection Hh as ->. injection Hr as ->.
      rewrite foldl_zip_notin; [by rewrite lookup_insert_eq|].
      intros Hin. apply list_elem_of_lookup in Hin as [j Hj].
      by specialize (Huniq (S j) Hj).
    + apply (IH row _ i); [|done|done].
      intros j Hj. specialize (Huniq (S j) Hj). lia.
Qed.

Lemma index_of_None c headers : index_of c headers = None → c ∉ headers.
Proof.
  induction headers as [|h headers IH]; simpl; [intros _; apply not_elem_of_nil|].
  destruct (decide (h = c)); [done|].
  destruct (index_of c headers); [done|]. intros _.
  apply not_elem_of_cons. split; [done|]. by apply IH.
Qed.

Lemma index_of_Some c headers i : index_of c headers = Some i → headers !! i = Some c.
Proof.
  revert i. induction headers as [|h headers IH]; intros i; simpl; [done|].
  destruct (decide (h = c)) as [->|Hne].
  - by intros [= <-].
  - destruct (index_of c headers) as [k|]; [|done].
    intros [= <-]. by apply IH.
Qed.

(** What a data row contributes: its dictionary carries a truthy identifier
    only if the cell the reader inspects holds that very value. *)
Lemma dict_zip_id headers row c :
  at_most_once c headers →
  truthy (py_get (none_to_empty <$> dict_zip headers row) c) = true →
  ∃ i, index_of c headers = Some i
       ∧ (∀ v, row !! i = Some v →
               v = py_get (none_to_empty <$> dict_zip headers row) c ∧ v ≠ PNone).
Proof.
  intros Honce. unfold py_get, dict_zip. rewrite lookup_fmap.
  destruct (index_of c headers) as [i|] eqn:Hidx.
  - intros Ht. exists i. split; [done|]. intros v Hv.
    apply index_of_Some in Hidx.
    rewrite (foldl_zip_lookup headers row ∅ c i v) in Ht |- *; [|by eauto..].
    simpl in *. by destruct v.
  - apply index_of_None in Hidx. by rewrite foldl_zip_notin, lookup_empty.
Qed.

(** The loop invariant of the reader: every truthy identifier carried by a
    row of [data] is in [ids]. *)
Lemma read_rows_cover headers c rows data ids data' ids' :
  at_most_once c headers →
  read_rows headers (index_of c headers) rows data ids = inr (data', ids') →
  (∀ r, r ∈ data → truthy (py_get r c) = true → py_get r c ∈ ids) →
  ∀ r, r ∈ data' → truthy (py_get r c) = true → py_get r c ∈ ids'.
Proof.
  intros Honce. revert data ids.
  induction rows as [|row rows IH]; intros data ids Hread Hinv; simpl in Hread.
  - by injection Hread as <- <-.
  - pose proof (dict_zip_id headers row c Honce) as Hrow.
    destruct (index_of c headers) as [i|] eqn:Hidx.
    + destruct (row !! i) as [v|] eqn:Hv; [|done].
      assert (∀ ids0, ids ⊆ ids0 → (v ≠ PNone → v ∈ ids0) →
                ∀ r, r ∈ data ++ [none_to_empty <$> dict_zip headers row] →
                     truthy (py_get r c) = true → py_get r c ∈ ids0) as Hstep.
      { intros ids0 Hsub Hadd r Hr Ht.
        apply elem_of_app in Hr as [Hr|Hr].
        - apply Hsub. by apply Hinv.
        - apply list_elem_of_singleton in Hr as ->.
          destruct (Hrow Ht) as (k & [= <-] & Hk).
          destruct (Hk v Hv) as [<- Hne]. by apply Hadd. }
      destruct v; (eapply IH; [exact Hread|]);
        apply Hstep; try done; set_solver.
    + eapply IH; [exact Hread|]. intros r Hr Ht.
      apply elem_of_app in Hr as [Hr|Hr]; [by apply Hinv|].
      apply list_elem_of_singleton in Hr as ->.
      by destruct (Hrow Ht) as (k & ? & _).
Qed.

Lemma load_existing_rows_cover f sheet_name c :
  id_column_unambiguous f sheet_name c →
  ∀ r, r ∈ (load_existing_rows f sheet_name c).1 →
       truthy (py_get r c) = true →
       py_get r c ∈ (load_existing_rows f sheet_name c).2.
Proof.
  unfold load_existing_rows, load_existing_rows_body, id_column_unambiguous.
  destruct f as [| |sheets]; simpl; try (intros _ r Hr; by apply elem_of_nil in Hr).
  destruct (decide (sheet_name ∉ sheetnames sheets));
    [intros _ r Hr; by apply elem_of_nil in Hr|].
  destruct (get_sheet sheets sheet_name) as [[|header_row rows]|];
    try (intros _ r Hr; by apply elem_of_nil in Hr).
  intros Honce.
  destruct (read_rows _ _ rows [] ∅) as [e|[data ids]] eqn:Hread; simpl;
    [intros r Hr; by apply elem_of_nil in Hr|].
  eapply read_rows_cover; [exact Honce|exact Hread|].
  intros r Hr. by apply elem_of_nil in Hr.
Qed.

End ReaderFacts.

Lemma get_sheet_None sheets name :
  get_sheet sheets name = None ↔ name ∉ sheetnames sheets.
Proof.
  unfold sheetnames. induction sheets as [|[n rows] sheets IH].
  - split; [intros _; apply not_elem_of_nil|done].
  - rewrite fmap_cons, not_elem_of_cons. simpl.
    destruct (decide (n = name)) as [->|Hne]; [by split; [|intros []]|].
    rewrite IH. split; [by split|tauto].
Qed.

(** C9: the reader returns the empty state [([], set())] when the file is
    missing, when [load_workbook] rejects it, when the workbook lacks the
    requested sheet, and whenever the body of its [try] raises; it is a total
    function, so it never raises itself.  What it returns for a sheet depends
    only on that sheet, not on the other sheets of the workbook. *)
Theorem load_existing_rows_tolerant (sheet_name id_col : string) :
  load_existing_rows FileMissing sheet_name id_col = ([], ∅)
  ∧ load_existing_rows FileUnreadable sheet_name id_col = ([], ∅)
  ∧ (∀ sheets, sheet_name ∉ sheetnames sheets →
       load_existing_rows (FileWorkbook sheets) sheet_name id_col = ([], ∅))
  ∧ (∀ f e, load_existing_rows_body f sheet_name id_col = inl e →
       load_existing_rows f sheet_name id_col = ([], ∅))
  ∧ (∀ sheets1 sheets2,
       get_sheet sheets1 sheet_name = get_sheet sheets2 sheet_name →
       load_existing_rows (FileWorkbook sheets1) sheet_name id_col
       = load_existing_rows (FileWorkbook sheets2) sheet_name id_col).
Proof.
  repeat split.
  - intros sheets Hno. unfold load_existing_rows, load_existing_rows_body. simpl.
    by rewrite decide_True.
  - intros f e He. unfold load_existing_rows. rewrite He. by destruct (path_exists f).
  - intros sheets1 sheets2 Heq.
    unfold load_existing_rows, load_existing_rows_body. simpl.
    destruct (decide (sheet_name ∉ sheetnames sheets1)) as [H1|H1];
      destruct (decide (sheet_name ∉ sheetnames sheets2)) as [H2|H2].
    + done.
    + apply get_sheet_None in H1. rewrite <- Heq, H1. done.
    + apply get_sheet_None in H2. rewrite Heq, H2. done.
    + by rewrite Heq.
Qed.

Section SnapshotInvariant.

Variable columns : Item → Row.

Lemma row_id_normalize_all (l : list Item) :
  Forall has_id l → row_id <$> (normalize columns <$> l) = item_id <$> l.
Proof.
  induction 1 as [|x l Hx _ IH]; [done|].
  by rewrite !fmap_cons, IH, row_id_normalize_has_id.
Qed.

Lemma merge_unique existing ex_ids fetched :
  unique_ids existing →
  (∀ r, r ∈ existing → truthy (row_id r) = true → row_id r ∈ ex_ids) →
  unique_ids (merge columns existing ex_ids fetched).
Proof.
  intros Hex Hcover. unfold unique_ids. rewrite merge_closed_form, fmap_app.
  set (new := filter (λ i, item_id i ∉ ex_ids) (first_by_id (filter has_id fetched))).
  assert (Forall (λ i, has_id i ∧ item_id i ∉ ex_ids) new) as Hnew.
  { apply Forall_forall. intros i Hi.
    apply list_elem_of_filter in Hi as [Hun Hi].
    apply elem_of_first_by_id, list_elem_of_filter in Hi. tauto. }
  rewrite row_id_normalize_all by (eapply Forall_impl; [exact Hnew|by intros ? []]).
  apply NoDup_app. split; [done|]. split.
  - intros v Hv Hv'.
    apply list_elem_of_fmap in Hv as (r & -> & Hr).
    apply list_elem_of_fmap in Hv' as (i & Hri & Hi).
    destruct (proj1 (Forall_forall _ _) Hnew i Hi) as [Hid Hun].
    apply Hun. rewrite <- Hri. apply Hcover; [done|]. by rewrite Hri.
  - apply NoDup_fmap_filter, first_by_id_NoDup.
Qed.

(** C5 (as amended): a run keeps identifiers unique in the categories that
    are merged through [dedupe] on the [TMDB ID] column (movies, TV shows,
    anime).  If the header of the prior sheet names the identifier column at
    most once and no two rows the reader loads from it share an identifier,
    then no two rows of the list the run writes for that category do,
    whatever was fetched.  The channels, merged without [dedupe], are not
    covered. *)
Theorem sync_keeps_ids_unique incremental f sheet_name fetched :
  id_column_unambiguous f sheet_name TMDB_ID →
  unique_ids (prior_state incremental f sheet_name).1 →
  unique_ids (sync_category columns incremental f sheet_name fetched).
Proof.
  intros Honce Hprior. unfold sync_category. apply merge_unique; [done|].
  unfold prior_state in *.
  destruct (incremental && path_exists f).
  - by apply load_existing_rows_cover.
  - intros r Hr. by apply elem_of_nil in Hr.
Qed.

End SnapshotInvariant.

(** ** Concrete runs of the reader *)

Example load_movies :
  load_existing_rows sample_store "Movies" TMDB_ID
  = ([ {[ "TMDB ID" := PInt 1; "Title" := PStr "A" ]};
       {[ "TMDB ID" := PStr ""; "Title" := PStr "B" ]};
       {[ "TMDB ID" := PInt 3; "Title" := PStr "" ]} ],
     {[ PInt 1; PInt 3 ]}).
Proof. vm_compute. reflexivity. Qed.

Example load_missing_sheet :
  load_existing_rows sample_store "TV Shows" TMDB_ID = ([], ∅).
Proof. vm_compute. reflexivity. Qed.

Example load_empty_sheet :
  load_existing_rows (FileWorkbook [("Movies", [])]) "Movies" TMDB_ID = ([], ∅).
Proof. vm_compute. reflexivity. Qed.

Example load_short_row :
  load_existing_rows
    (FileWorkbook [("Movies", [[PStr "Title"; PStr "TMDB ID"]; [PStr "A"]])])
    "Movies" TMDB_ID = ([], ∅).
Proof. vm_compute. reflexivity. Qed.

Lemma load_existing_rows_tolerant_witness :
  load_existing_rows sample_store "TV Shows" TMDB_ID = ([], ∅).
Proof.
  apply (proj1 (proj2 (proj2 (load_existing_rows_tolerant "TV Shows" TMDB_ID)))).
  compute_done.
Defined.

Lemma sync_keeps_ids_unique_witness :
  unique_ids (sync_category no_columns true sample_store "Movies"
                [item_of (PInt 3) "c"; item_of (PInt 4) "d"; item_of (PInt 4) "e"]).
Proof.
  apply sync_keeps_ids_unique.
  - intros i j Hi Hj. destruct i as [|[|[|]]]; destruct j as [|[|[|]]]; done.
  - vm_compute. repeat constructor; set_solver.
Defined.

(** C5, counterexample: two ways a run ends with a repeated identifier
    although the rows it loaded have none.  The channels are merged without
    [dedupe]: when the remote answers the network ids 1 and 2 with the same
    object, both records are appended and carry the identifier 7.  And with a
    movie sheet whose header names [TMDB ID] twice, the rows take their
    identifier from the last such column and the known ids from the first:
    the fetched record 3 is not among the known ids 1 and 2 and is appended
    next to the loaded row 3. *)
Lemma sync_can_duplicate_ids :
  (channel_id <$> (prior_channels true FileMissing "Channels").1 = []
   ∧ network_details same_id_remote [PInt 1; PInt 2] []
     = Return [network_record (PInt 1) {[ "id" := PInt 7 ]};
               network_record (PInt 2) {[ "id" := PInt 7 ]}]
   ∧ channel_id
     <$> merge_channels (prior_channels true FileMissing "Channels").1
           (prior_channels true FileMissing "Channels").2
           [network_record (PInt 1) {[ "id" := PInt 7 ]};
            network_record (PInt 2) {[ "id" := PInt 7 ]}]
     = [PInt 7; PInt 7])
  ∧ (row_id <$> (prior_state true doubled_header_store "Movies").1
     = [PInt 2; PInt 3]
     ∧ (prior_state true doubled_header_store "Movies").2 = {[ PInt 1; PInt 2 ]}
     ∧ row_id
       <$> sync_category no_columns true doubled_header_store "Movies"
             [item_of (PInt 3) "c"]
       = [PInt 2; PInt 3; PInt 3]).
Proof. split; (split; [|split]); reflexivity. Qed.

(** * The fetch client: claims C2 and C3 *)

Section ClientFacts.

Implicit Types (env : nat → Response) (log : list event).

Lemma requests_sent_app log1 log2 :
  requests_sent (log1 ++ log2) = requests_sent log1 + requests_sent log2.
Proof. unfold requests_sent. by rewrite filter_app, length_app. Qed.

Lemma get_loop_requests env attempts log :
  requests_sent (get_loop env attempts log).2 ≤ requests_sent log + length attempts.
Proof.
  revert log. induction attempts as [|a attempts IH]; intros log; simpl; [lia|].
  assert (∀ n, requests_sent
            (get_loop env attempts ((log ++ [Request]) ++ [Sleep n])).2
          ≤ requests_sent log + S (length attempts)) as Hnext.
  { intros n. etrans; [apply IH|]. rewrite !requests_sent_app.
    change (requests_sent [Request]) with 1.
    change (requests_sent [Sleep n]) with 0. lia. }
  assert (requests_sent (log ++ [Request]) ≤ requests_sent log + S (length attempts))
    as Hnow.
  { rewrite requests_sent_app. change (requests_sent [Request]) with 1. lia. }
  assert (requests_sent
            (if (a =? 2)%nat then (Return (None : option Page), log ++ [Request])
             else get_loop env attempts
                    ((log ++ [Request]) ++ [Sleep (2 ^ Z.of_nat a)])).2
          ≤ requests_sent log + S (length attempts)) as Herr.
  { destruct (a =? 2)%nat; [exact Hnow|apply Hnext]. }
  destruct (env a) as [|status_code retry_after body]; [exact Herr|].
  destruct (status_code =? 429)%Z.
  - destruct (retry_wait retry_after); [apply Hnext|exact Hnow].
  - destruct (raise_for_status status_code); [exact Herr|].
    destruct body; [exact Herr|exact Hnow].
Qed.

Lemma get_loop_failed env a rest log :
  failed (env a) →
  get_loop env (a :: rest) log
  = if (a =? 2)%nat then (Return None, log ++ [Request])
    else get_loop env rest ((log ++ [Request]) ++ [Sleep (2 ^ Z.of_nat a)]).
Proof.
  simpl. destruct (env a) as [|status_code retry_after body]; [done|].
  intros [Hne Hfail]. apply Z.eqb_neq in Hne. rewrite Hne.
  destruct Hfail as [->| ->]; [done|]. by destruct (raise_for_status status_code).
Qed.

(** C2 (as amended): on a 429 reply [get] reads the wait the server names
    (5 seconds when the header is absent).  When the wait is an integer that
    [time.sleep] takes, [get] sleeps for it and then sends the same request
    again, but this retry uses up one of the three iterations of the loop: a
    429 reply in iteration [attempt] leaves only the iterations after it.
    Otherwise there is no retry and the exception escapes [get] right after
    that request: the [ValueError] of [int] on a text that is no integer, or
    what [time.sleep] raises, which is [OverflowError] for a wait outside
    -9223372036 .. 9223372036 s, [ValueError] for another negative wait, and
    [OSError] for a wait the clock of the platform refuses.  So [get] never
    sends more than three requests, and after three 429 replies with waits
    it can sleep for it returns [None]. *)
Theorem get_rate_limit_uses_a_slot :
  (∀ env attempt rest log retry_after body,
     env attempt = Reply 429 retry_after body →
     get_loop env (attempt :: rest) log
     = match retry_wait retry_after with
       | Return wait => get_loop env rest (log ++ [Request; Sleep wait])
       | Raise e => (Raise e, log ++ [Request])
       end)
  ∧ (retry_wait NoRetryAfter = Return 5%Z
     ∧ retry_wait RetryAfterOther = Raise ValueError
     ∧ ∀ n clock_takes_it,
         retry_wait (RetryAfterInt n clock_takes_it)
         = if bool_decide (n < -9223372036 ∨ 9223372036 < n)%Z
           then Raise OverflowError
           else if bool_decide (n < 0)%Z then Raise ValueError
           else if clock_takes_it then Return n
           else Raise OSError)
  ∧ (∀ env, requests_sent (get env).2 ≤ 3)
  ∧ (∀ env h0 h1 h2 b0 b1 b2,
       env 0 = Reply 429 h0 b0 → env 1 = Reply 429 h1 b1 → env 2 = Reply 429 h2 b2 →
       get env
       = match retry_wait h0 with
         | Raise e => (Raise e, [Request])
         | Return w0 =>
             match retry_wait h1 with
             | Raise e => (Raise e, [Request; Sleep w0; Request])
             | Return w1 =>
                 match retry_wait h2 with
                 | Raise e =>
                     (Raise e, [Request; Sleep w0; Request; Sleep w1; Request])
                 | Return w2 =>
                     (Return None,
                      [Request; Sleep w0; Request; Sleep w1; Request; Sleep w2])
                 end
             end
         end).
Proof.
  split; [|split; [|split]].
  - intros env attempt rest log retry_after body Henv. simpl.
    rewrite Henv. simpl. destruct (retry_wait retry_after); [|done].
    by rewrite <- app_assoc.
  - split; [done|]. split; [done|]. intros n clock_takes_it.
    unfold retry_wait, time_sleep, NS_PER_SECOND, PY_TIME_MIN, PY_TIME_MAX.
    repeat case_bool_decide;
      destruct (n * 1000000000 <? -9223372036854775808)%Z eqn:Hlo;
      destruct (n * 1000000000 >? 9223372036854775807)%Z eqn:Hhi;
      destruct (n <? 0)%Z eqn:Hneg; simpl; try done; lia.
  - intros env. apply (get_loop_requests env (seq 0 3) []).
  - intros env h0 h1 h2 b0 b1 b2 E0 E1 E2.
    unfold get. simpl. rewrite E0. simpl.
    destruct (retry_wait h0); [|done]. rewrite E1. simpl.
    destruct (retry_wait h1); [|done]. rewrite E2. simpl.
    by destruct (retry_wait h2).
Qed.

(** C3 (as amended): when every request fails with an error other than 429
    (a request error, a 4xx/5xx status, an undecodable body), [get] makes
    exactly three attempts, sleeps 1 s after the first and 2 s after the
    second (there is no sleep after the third, hence no 4 s sleep), and
    returns [None] instead of raising.  A success on the second or third
    attempt is returned after the same sleeps. *)
Theorem get_gives_up_after_three_attempts :
  (∀ env, (∀ k, k < 3 → failed (env k)) →
     get env = (Return None, [Request; Sleep 1; Request; Sleep 2; Request]))
  ∧ (∀ env status_code retry_after data,
       failed (env 0) → env 1 = Reply status_code retry_after (Json data) →
       status_code ≠ 429%Z → raise_for_status status_code = false →
       get env = (Return data, [Request; Sleep 1; Request]))
  ∧ (∀ env status_code retry_after data,
       failed (env 0) → failed (env 1) →
       env 2 = Reply status_code retry_after (Json data) →
       status_code ≠ 429%Z → raise_for_status status_code = false →
       get env = (Return data, [Request; Sleep 1; Request; Sleep 2; Request])).
Proof.
  repeat split.
  - intros env Hfail. unfold get. simpl seq.
    rewrite !get_loop_failed by (apply Hfail; lia). done.
  - intros env status_code retry_after data H0 H1 Hne Hok. unfold get. simpl seq.
    rewrite get_loop_failed by done. simpl.
    apply Z.eqb_neq in Hne. by rewrite H1, Hne, Hok.
  - intros env status_code retry_after data H0 H1 H2 Hne Hok. unfold get. simpl seq.
    rewrite !get_loop_failed by done. simpl.
    apply Z.eqb_neq in Hne. by rewrite H2, Hne, Hok.
Qed.

End ClientFacts.

(** ** Concrete runs of the client *)

(** C2, counterexample: the fourth request, which would succeed, is never
    sent; the three 429 replies use up the three attempts and [get] returns
    [None], where the loop of the specification goes on to the success. *)
Lemma get_stops_after_three_rate_limits :
  get rate_limited_thrice
  = (Return None, [Request; Sleep 5; Request; Sleep 5; Request; Sleep 5])
  ∧ requests_sent (get rate_limited_thrice).2 = 3
  ∧ get_as_specified 10 rate_limited_thrice 0 0 []
    = Some (Return (Some (page_of [] 1)),
            [Request; Sleep 5; Request; Sleep 5; Request; Sleep 5; Request]).
Proof. vm_compute. repeat split; reflexivity. Qed.

Lemma get_rate_limit_uses_a_slot_witness :
  get rate_limited_thrice
  = (Return None, [Request; Sleep 5; Request; Sleep 5; Request; Sleep 5]).
Proof.
  apply (proj2 (proj2 (proj2 get_rate_limit_uses_a_slot))
           rate_limited_thrice NoRetryAfter NoRetryAfter NoRetryAfter
           NotJson NotJson NotJson); reflexivity.
Defined.

Example get_negative_retry_after_escapes :
  get (λ _, Reply 429 (RetryAfterInt (-1) true) NotJson) = (Raise ValueError, [Request]).
Proof. reflexivity. Qed.

Example get_overlong_retry_after_escapes :
  get (λ _, Reply 429 (RetryAfterInt 9223372037 true) NotJson)
  = (Raise OverflowError, [Request]).
Proof. reflexivity. Qed.

Example get_refused_retry_after_escapes :
  get (λ _, Reply 429 (RetryAfterInt 9223372036 false) NotJson)
  = (Raise OSError, [Request]).
Proof. reflexivity. Qed.

(** C3, counterexample: three failed attempts are separated by two sleeps,
    1 s and 2 s; the 4 s sleep of the claim does not occur. *)
Lemma get_backoff_is_one_then_two :
  get always_503 = (Return None, [Request; Sleep 1; Request; Sleep 2; Request])
  ∧ sleeps (get always_503).2 = [1; 2]%Z
  ∧ bool_decide (sleeps (get always_503).2 = backoff_as_specified) = false.
Proof. vm_compute. repeat split; reflexivity. Qed.

Lemma get_gives_up_after_three_attempts_witness :
  get always_503 = (Return None, [Request; Sleep 1; Request; Sleep 2; Request]).
Proof.
  apply (proj1 get_gives_up_after_three_attempts).
  intros k _. split; [done|]. left. reflexivity.
Defined.

Example get_mixed_rate_limit_and_error :
  get (λ attempt, match attempt with
                  | 0 => Reply 429 (RetryAfterInt 7 true) NotJson
                  | _ => RequestError
                  end)
  = (Return None, [Request; Sleep 7; Request; Sleep 2; Request]).
Proof. reflexivity. Qed.

Example get_retry_after_date_escapes :
  get (λ _, Reply 429 RetryAfterOther NotJson) = (Raise ValueError, [Request]).
Proof. reflexivity. Qed.

(** * The incremental page walker: claim C1 *)

Section WalkerFacts.

Variable client_get : Z → outcome (option Page).
Variable existing_ids : gset pyval.
Variable max_pages : option Z.

Local Open Scope Z_scope.

Lemma capped_total_pages_le d : capped_total_pages d ≤ 500.
Proof. unfold capped_total_pages. lia. Qed.

(** The loop always returns: the page counter grows and never passes the cap
    on [total_pages]. *)
Lemma fetch_incremental_loop_total fuel page total_pages results trace :
  total_pages ≤ 500 →
  (Z.to_nat (501 - page) < fuel)%nat →
  is_Some (fetch_incremental_loop fuel client_get existing_ids max_pages
             page total_pages results trace).
Proof.
  revert page total_pages results trace.
  induction fuel as [|fuel IH]; intros page total_pages results trace Hcap Hfuel;
    [lia|].
  simpl. destruct (page <=? total_pages) eqn:Hle; simpl; [|by eexists].
  apply Z.leb_le in Hle.
  destruct (over_budget max_pages page); [by eexists|].
  destruct (client_get page) as [data|e]; [|by eexists].
  destruct (falsy_data data); [by eexists|].
  destruct data as [d|]; [|by eexists].
  destruct ((length (new_on_page existing_ids d) =? 0)%nat && (page >? 1));
    [by eexists|].
  apply IH; [apply capped_total_pages_le|lia].
Qed.

Lemma fetch_incremental_total :
  is_Some (fetch_incremental client_get existing_ids max_pages).
Proof. apply fetch_incremental_loop_total; [lia|compute; lia]. Qed.

(** Whatever the loop returns, the trace it was entered with is a prefix of
    the final trace. *)
Lemma fetch_incremental_loop_trace fuel page total_pages results trace r t :
  fetch_incremental_loop fuel client_get existing_ids max_pages
    page total_pages results trace = Some (r, t) →
  ∃ more, t = trace ++ more.
Proof.
  revert page total_pages results trace.
  induction fuel as [|fuel IH]; intros page total_pages results trace; [done|].
  simpl. destruct (page <=? total_pages); simpl;
    [|intros [= _ <-]; exists []; by rewrite app_nil_r].
  destruct (over_budget max_pages page);
    [intros [= _ <-]; exists []; by rewrite app_nil_r|].
  destruct (client_get page) as [data|e]; [|intros [= _ <-]; by eexists].
  destruct (falsy_data data); [intros [= _ <-]; by eexists|].
  destruct data as [d|]; [|intros [= _ <-]; by eexists].
  destruct ((length (new_on_page existing_ids d) =? 0)%nat && (page >? 1));
    [intros [= _ <-]; by eexists|].
  intros Hloop. apply IH in Hloop as [more ->].
  exists (Fetch page :: Delay :: more). by rewrite <- !app_assoc.
Qed.

Lemma over_budget_mono p q :
  q ≤ p → over_budget max_pages p = false → over_budget max_pages q = false.
Proof.
  unfold over_budget. destruct max_pages as [m|]; [|done].
  destruct (m =? 0); simpl; [done|]. lia.
Qed.

(** A walk whose pages [page], [page + 1], ... are the continuing pages [ds]
    and whose next page is fully known stops there. *)
Lemma fetch_incremental_loop_stops ds d fuel page total_pages results trace :
  (length ds < fuel)%nat →
  page ≤ total_pages →
  (∀ k d_k, ds !! k = Some d_k →
     continues client_get existing_ids (page + Z.of_nat k) d_k) →
  fully_known client_get existing_ids (page + Z.of_nat (length ds)) d →
  over_budget max_pages (page + Z.of_nat (length ds)) = false →
  fetch_incremental_loop fuel client_get existing_ids max_pages
    page total_pages results trace
  = Some (Return (results ++ concat (new_on_page existing_ids <$> ds)),
          trace ++ walk_trace page (length ds)).
Proof.
  revert fuel page total_pages results trace.
  induction ds as [|d0 ds IH];
    intros fuel page total_pages results trace Hfuel Hle Hcont Hstop Hbudget;
    (destruct fuel as [|fuel]; [simpl in Hfuel; lia|]).
  - simpl in Hstop, Hbudget. rewrite Z.add_0_r in Hstop, Hbudget.
    destruct Hstop as (Hget & Hdata & Hnew & Hpage).
    cbn [fetch_incremental_loop].
    rewrite (proj2 (Z.leb_le _ _) Hle), Hbudget, Hget, Hdata, Hnew.
    simpl. rewrite (proj2 (Z.gtb_gt _ _)) by lia. by rewrite !app_nil_r.
  - destruct (Hcont 0%nat d0 eq_refl) as (Hget & Hdata & Hgo & Hnext).
    rewrite Z.add_0_r in Hget, Hgo, Hnext.
    cbn [fetch_incremental_loop].
    rewrite (proj2 (Z.leb_le _ _) Hle).
    rewrite (over_budget_mono (page + Z.of_nat (length (d0 :: ds))) page
               ltac:(lia) Hbudget).
    rewrite Hget, Hdata. cbn [negb].
    assert ((length (new_on_page existing_ids d0) =? 0)%nat && (page >? 1) = false)
      as ->.
    { destruct Hgo as [->|Hnew]; [by rewrite andb_false_r|].
      destruct (new_on_page existing_ids d0); [done|]. done. }
    rewrite (IH fuel (page + 1) (capped_total_pages d0)).
    + rewrite fmap_cons. simpl. by rewrite <- !app_assoc.
    + simpl in Hfuel. lia.
    + done.
    + intros k d_k Hk. specialize (Hcont (S k) d_k Hk).
      by replace (page + 1 + Z.of_nat k) with (page + Z.of_nat (S k)) by lia.
    + by replace (page + 1 + Z.of_nat (length ds))
        with (page + Z.of_nat (length (d0 :: ds))) by (simpl length; lia).
    + by replace (page + 1 + Z.of_nat (length ds))
        with (page + Z.of_nat (length (d0 :: ds))) by (simpl length; lia).
Qed.

(** A page within the reported total and the budget is asked for. *)
Lemma fetch_incremental_loop_fetches fuel page total_pages results trace :
  total_pages ≤ 500 →
  (Z.to_nat (501 - page) < fuel)%nat →
  page ≤ total_pages →
  over_budget max_pages page = false →
  ∃ r more,
    fetch_incremental_loop fuel client_get existing_ids max_pages
      page total_pages results trace
    = Some (r, trace ++ Fetch page :: more).
Proof.
  intros Hcap Hfuel Hle Hbudget. destruct fuel as [|fuel]; [lia|].
  cbn [fetch_incremental_loop].
  rewrite (proj2 (Z.leb_le _ _) Hle), Hbudget. cbn [negb].
  destruct (client_get page) as [data|e]; [|by eexists _, []].
  destruct (falsy_data data); [by eexists _, []|].
  destruct data as [d|]; [|by eexists _, []].
  destruct ((length (new_on_page existing_ids d) =? 0)%nat && (page >? 1));
    [by eexists _, []|].
  destruct (fetch_incremental_loop_total fuel (page + 1) (capped_total_pages d)
              (results ++ new_on_page existing_ids d)
              ((trace ++ [Fetch page]) ++ [Delay]))
    as [[r t] Hloop]; [apply capped_total_pages_le|lia|].
  rewrite Hloop.
  apply fetch_incremental_loop_trace in Hloop as [more ->].
  exists r, (Delay :: more). by rewrite <- !app_assoc.
Qed.

(** Page 1 without a new record: the walk goes on to page 2 when the total
    it reports and the budget admit it. *)
Lemma fetch_incremental_loop_first_page fuel d1 :
  (Z.to_nat 499 < fuel)%nat →
  client_get 1 = Return (Some d1) →
  falsy_data (Some d1) = false →
  new_on_page existing_ids d1 = [] →
  2 ≤ capped_total_pages d1 →
  over_budget max_pages 2 = false →
  ∃ r more,
    fetch_incremental_loop (S fuel) client_get existing_ids max_pages 1 1 [] []
    = Some (r, Fetch 1 :: Delay :: Fetch 2 :: more).
Proof.
  intros Hfuel Hget Hdata Hnew Htotal Hbudget.
  cbn [fetch_incremental_loop].
  assert (over_budget max_pages 1 = false) as ->
    by (apply (over_budget_mono 2); [lia|done]).
  rewrite Hget, Hdata, Hnew. simpl.
  change (1 + 1) with 2.
  destruct (fetch_incremental_loop_fetches fuel 2 (capped_total_pages d1)
              [] [Fetch 1; Delay])
    as (r & more & ->); [apply capped_total_pages_le|simpl; lia|done|done|].
  by exists r, more.
Qed.

End WalkerFacts.

(** C1: the early-stop rule of the incremental walker.

    (1) A walk always starts at page 1.  If pages 1, ..., n are served and
    the walk goes on after each ([ds]), and the next page, after page 1, is
    served and has no record with an unknown id, then the walker stops right
    there: it has asked for exactly pages 1, ..., n+1 and returns the new
    records accumulated from pages 1, ..., n.

    (2) The rule does not apply to page 1: if page 1 has no new record but
    reports at least two pages and the budget admits page 2, page 2 is asked
    for.

    (3) With remote pages [new, new, known, known, known] (five pages, each
    reporting a total of 5), the walker asks for pages 1, 2, 3 and no other,
    and returns the new records of pages 1 and 2. *)
Theorem fetch_incremental_early_stop :
  (∀ client_get existing_ids max_pages (ds : list Page) (d : Page),
     (∀ k d_k, ds !! k = Some d_k →
        continues client_get existing_ids (1 + Z.of_nat k) d_k) →
     fully_known client_get existing_ids (1 + Z.of_nat (length ds)) d →
     over_budget max_pages (1 + Z.of_nat (length ds)) = false →
     fetch_incremental client_get existing_ids max_pages
     = Some (Return (concat (new_on_page existing_ids <$> ds)),
             walk_trace 1 (length ds)))
  ∧ (∀ client_get existing_ids max_pages (d1 : Page),
       client_get 1%Z = Return (Some d1) →
       falsy_data (Some d1) = false →
       new_on_page existing_ids d1 = [] →
       (2 ≤ capped_total_pages d1)%Z →
       over_budget max_pages 2 = false →
       ∃ r more,
         fetch_incremental client_get existing_ids max_pages
         = Some (r, Fetch 1 :: Delay :: Fetch 2 :: more))
  ∧ (∀ client_get existing_ids max_pages (d1 d2 d3 : Page),
       client_get 1%Z = Return (Some d1) →
       client_get 2%Z = Return (Some d2) →
       client_get 3%Z = Return (Some d3) →
       page_total_pages d1 = Some 5%Z →
       page_total_pages d2 = Some 5%Z →
       page_total_pages d3 = Some 5%Z →
       new_on_page existing_ids d1 ≠ [] →
       new_on_page existing_ids d2 ≠ [] →
       new_on_page existing_ids d3 = [] →
       over_budget max_pages 3 = false →
       ∃ trace,
         fetch_incremental client_get existing_ids max_pages
         = Some (Return (new_on_page existing_ids d1 ++ new_on_page existing_ids d2),
                 trace)
         ∧ pages_fetched trace = [1; 2; 3]%Z).
Proof.
  assert (∀ client_get existing_ids max_pages (ds : list Page) (d : Page),
     (∀ k d_k, ds !! k = Some d_k →
        continues client_get existing_ids (1 + Z.of_nat k) d_k) →
     fully_known client_get existing_ids (1 + Z.of_nat (length ds)) d →
     over_budget max_pages (1 + Z.of_nat (length ds)) = false →
     fetch_incremental client_get existing_ids max_pages
     = Some (Return (concat (new_on_page existing_ids <$> ds)),
             walk_trace 1 (length ds))) as Hstop.
  { intros client_get existing_ids max_pages ds d Hcont Hknown Hbudget.
    unfold fetch_incremental.
    rewrite (fetch_incremental_loop_stops client_get existing_ids max_pages ds d);
      [done| |lia|done|done|done].
    destruct (decide (ds = [])) as [->|Hne].
    - simpl. lia.
    - destruct (lookup_lt_is_Some_2 ds (length ds - 1)) as [d_k Hk].
      { destruct ds; [done|]. simpl. lia. }
      destruct (Hcont _ _ Hk) as (_ & _ & _ & Hnext).
      pose proof (capped_total_pages_le d_k). lia. }
  split; [exact Hstop|]. split.
  - intros client_get existing_ids max_pages d1 Hget Hdata Hnew Htotal Hbudget.
    unfold fetch_incremental. change 501%nat with (S 500).
    apply (fetch_incremental_loop_first_page client_get existing_ids max_pages
             500 d1); [|done..].
    apply Nat.ltb_lt. vm_compute. reflexivity.
  - intros client_get existing_ids max_pages d1 d2 d3 G1 G2 G3 T1 T2 T3 N1 N2 N3
      Hbudget.
    exists (walk_trace 1 2). split; [|reflexivity].
    rewrite (Hstop client_get existing_ids max_pages [d1; d2] d3).
    + simpl. by rewrite app_nil_r.
    + intros [|[|k]] d_k; simpl; [intros [= <-]..|done].
      * unfold continues, capped_total_pages, falsy_data. rewrite T1.
        split; [exact G1|]. split; [by destruct (page_results d1)|].
        split; [by left|]. simpl. lia.
      * unfold continues, capped_total_pages, falsy_data. rewrite T2.
        split; [exact G2|]. split; [by destruct (page_results d2)|].
        split; [by right|]. simpl. lia.
    + unfold fully_known, falsy_data. rewrite T3.
      split; [exact G3|]. split; [by destruct (page_results d3)|].
      split; [exact N3|]. simpl. lia.
    + exact Hbudget.
Qed.

(** ** Concrete runs of the walker *)

Example walk_five_pages :
  fetch_incremental five_pages known_ids (Some 100%Z)
  = Some (Return [item_of (PInt 10) "j"; item_of (PInt 11) "k"],
          [Fetch 1; Delay; Fetch 2; Delay; Fetch 3]).
Proof. vm_compute. reflexivity. Qed.

(** Page 1 without a new record does not end the walk. *)
Example walk_known_first_page :
  fetch_incremental
    (λ page, Return (match page with
                     | 1 => Some page3
                     | 2 => Some page1
                     | 3 => Some page4
                     | _ => None
                     end%Z))
    known_ids None
  = Some (Return [item_of (PInt 10) "j"],
          [Fetch 1; Delay; Fetch 2; Delay; Fetch 3]).
Proof. vm_compute. reflexivity. Qed.

Lemma fetch_incremental_early_stop_witness :
  fetch_incremental five_pages known_ids (Some 100%Z)
  = Some (Return (concat (new_on_page known_ids <$> [page1; page2])),
          walk_trace 1 2).
Proof.
  apply (proj1 fetch_incremental_early_stop five_pages known_ids (Some 100%Z)
           [page1; page2] page3).
  - intros [|[|k]] d_k; simpl; [intros [= <-]..|done].
    + repeat split; [by left|compute_done].
    + repeat split; [right; compute_done|compute_done].
  - repeat split; vm_compute; reflexivity.
  - reflexivity.
Defined.

(** * The change detector and the pipeline cycle: claims C7 and C8 *)

Section DetectorFacts.

Implicit Types (old_counts new_counts : gmap string Z).

Lemma compare_flag old_counts (l : list (string * Z)) (b : bool) :
  foldl (λ has_new item,
           let prev := default 0%Z (old_counts !! item.1) in
           if (item.2 >? prev)%Z then true else has_new) b l = true
  ↔ b = true ∨ ∃ item, item ∈ l ∧ (default 0 (old_counts !! item.1) < item.2)%Z.
Proof.
  revert b. induction l as [|item l IH]; intros b; simpl.
  - split; [by left|]. intros [?|(item & Hin & _)]; [done|].
    by apply elem_of_nil in Hin.
  - rewrite IH. destruct (item.2 >? default 0 (old_counts !! item.1))%Z eqn:Hgt.
    + split; [|by left]. intros _. right. exists item. split; [left|lia].
    + split.
      * intros [->|(it & Hin & Hlt)]; [by left|].
        right. exists it. split; [by right|done].
      * intros [->|(it & Hin & Hlt)]; [by left|].
        apply elem_of_cons in Hin as [->|Hin]; [lia|].
        right. by exists it.
Qed.

Lemma compare_counts_true old_counts new_counts :
  compare_counts old_counts new_counts = true
  ↔ ∃ sheet count,
      new_counts !! sheet = Some count
      ∧ (default 0 (old_counts !! sheet) < count)%Z.
Proof.
  unfold compare_counts. rewrite compare_flag. split.
  - intros [?|([sheet count] & Hin & Hlt)]; [done|].
    apply elem_of_map_to_list in Hin. by exists sheet, count.
  - intros (sheet & count & Hin & Hlt). right. exists (sheet, count).
    split; [by apply elem_of_map_to_list|done].
Qed.

(** C7: with no baseline (the loaded baseline map is empty, which is what
    [_load_row_counts] yields for a missing or unparsable file, and what a
    stored empty map loads as) growth is reported whatever the new counts,
    the empty map included.  Otherwise growth is
    reported exactly when some sheet's new count is strictly above its
    baseline count (0 for a sheet the baseline lacks); sheets whose count
    stayed or shrank never raise it. *)
Theorem detect_new_rows_growth old_counts new_counts :
  (old_counts = ∅ → has_new_rows old_counts new_counts = true)
  ∧ has_new_rows ∅ ∅ = true
  ∧ (∀ x, (detect_new_rows CountsMissing x).1.1 = true
          ∧ (detect_new_rows CountsCorrupt x).1.1 = true
          ∧ (detect_new_rows (CountsStored ∅) x).1.1 = true)
  ∧ (old_counts ≠ ∅ →
       (has_new_rows old_counts new_counts = true
        ↔ ∃ sheet count,
            new_counts !! sheet = Some count
            ∧ (default 0 (old_counts !! sheet) < count)%Z))
  ∧ (old_counts ≠ ∅ →
       (∀ sheet count, new_counts !! sheet = Some count →
                       (count ≤ default 0 (old_counts !! sheet))%Z) →
       has_new_rows old_counts new_counts = false)
  ∧ (∀ f x, detect_new_rows f x
            = (has_new_rows (_load_row_counts f) (_count_excel_rows x),
               _load_row_counts f, _count_excel_rows x)).
Proof.
  assert (∀ new, has_new_rows ∅ new = true) as Hfirst.
  { intros new. unfold has_new_rows. by rewrite bool_decide_eq_true_2. }
  assert (old_counts ≠ ∅ →
          has_new_rows old_counts new_counts
          = compare_counts old_counts new_counts) as Hcmp.
  { intros Hne. unfold has_new_rows. by rewrite bool_decide_eq_false_2. }
  split; [by intros ->|].
  split; [apply Hfirst|].
  split; [intros x; split; [|split]; apply Hfirst|].
  split; [intros Hne; rewrite (Hcmp Hne); apply compare_counts_true|].
  split; [|done].
  intros Hne Hle. rewrite (Hcmp Hne). apply not_true_is_false.
  intros (sheet & count & Hin & Hlt)%compare_counts_true.
  specialize (Hle sheet count Hin). lia.
Qed.

End DetectorFacts.

Section CycleFacts.

Variable scraper : World → bool * World.
Variable linkvertise : World → bool * World.

(** C8 (as amended): in every cycle that reaches the change detection (the
    scraper step succeeded or was skipped, the link step is not disabled by
    [--skip-lv] or [--web-only], and the source workbook exists), the row
    counts just observed are saved as the baseline, whether growth was
    detected or not, whether [--force-lv] is set or not, and whatever the
    link generator did or returned. *)
Theorem run_pipeline_cycle_saves_counts (args : Args) (w : World) :
  (scrape_step scraper args w).1 = true →
  skip_lv args = false →
  web_only args = false →
  excel_exists (source_excel (scrape_step scraper args w).2) = true →
  row_count_file (run_pipeline_cycle scraper linkvertise args w)
  = CountsStored (_count_excel_rows (source_excel (scrape_step scraper args w).2)).
Proof.
  intros Hok Hskip Hweb Hex. unfold run_pipeline_cycle.
  rewrite Hok, Hskip, Hweb, Hex. simpl.
  by destruct (_ || _).
Qed.

End CycleFacts.

(** ** Concrete runs of the detector and of the cycle *)

Example detect_first_run :
  detect_new_rows CountsMissing ExcelUnreadable = (true, ∅, ∅).
Proof. reflexivity. Qed.

Example detect_growth :
  detect_new_rows (CountsStored {[ "Movies" := 5%Z; "TV" := 7%Z ]})
                  (ExcelSheets [("Movies", Some 5%Z); ("TV", Some 9%Z)])
  = (true, {[ "Movies" := 5%Z; "TV" := 7%Z ]}, {[ "Movies" := 4%Z; "TV" := 8%Z ]}).
Proof. vm_compute. reflexivity. Qed.

Example detect_shrinkage :
  (detect_new_rows (CountsStored {[ "Movies" := 5%Z; "TV" := 7%Z ]})
                   (ExcelSheets [("Movies", Some 6%Z); ("TV", Some 3%Z)])).1.1
  = false.
Proof. vm_compute. reflexivity. Qed.

Lemma detect_new_rows_growth_witness :
  has_new_rows {[ "Movies" := 5%Z ]} {[ "Movies" := 6%Z ]} = true.
Proof.
  apply (proj1 (proj2 (proj2 (proj2
           (detect_new_rows_growth {[ "Movies" := 5%Z ]} {[ "Movies" := 6%Z ]}))))).
  - compute_done.
  - exists "Movies", 6%Z. split; [reflexivity|compute_done].
Defined.

(** C8, counterexample: a cycle whose scraper fails, and a cycle run with
    [--skip-lv], both end without touching the baseline: it still says 5
    rows while the workbook has 10. *)
Lemma run_pipeline_cycle_can_skip_the_save :
  row_count_file
    (run_pipeline_cycle failing_scraper failing_linkvertise default_args stale_world)
  = CountsStored {[ "Movies" := 5%Z ]}
  ∧ row_count_file
      (run_pipeline_cycle growing_scraper failing_linkvertise
         (mkArgs false false false true false) stale_world)
    = CountsStored {[ "Movies" := 5%Z ]}
  ∧ _count_excel_rows (source_excel stale_world) = {[ "Movies" := 10%Z ]}.
Proof. vm_compute. repeat split; reflexivity. Qed.

Lemma run_pipeline_cycle_saves_counts_witness :
  row_count_file
    (run_pipeline_cycle growing_scraper failing_linkvertise default_args stale_world)
  = CountsStored
      (_count_excel_rows
         (source_excel (scrape_step growing_scraper default_args stale_world).2)).
Proof.
  apply run_pipeline_cycle_saves_counts; reflexivity.
Defined.

Example cycle_saves_after_failed_link_step :
  row_count_file
    (run_pipeline_cycle growing_scraper failing_linkvertise default_args stale_world)
  = CountsStored {[ "Movies" := 10%Z ]}.
Proof. vm_compute. reflexivity. Qed.

(** * Further properties of the fetch client *)

Section ClientMore.

Implicit Types (env : nat → Response) (log : list event).

Lemma get_loop_returns env attempts log :
  Forall (λ k, wait_readable (env k)) attempts →
  ∃ data, (get_loop env attempts log).1 = Return data.
Proof.
  intros Hok. revert log.
  induction Hok as [|a attempts Ha _ IH]; intros log; simpl; [by eexists|].
  assert (∃ data,
            (if (a =? 2)%nat then (Return (None : option Page), log ++ [Request])
             else get_loop env attempts
                    ((log ++ [Request]) ++ [Sleep (2 ^ Z.of_nat a)])).1
            = Return data) as Herr.
  { destruct (a =? 2)%nat; [by eexists|apply IH]. }
  destruct (env a) as [|status_code retry_after body]; [exact Herr|].
  destruct (status_code =? 429)%Z eqn:Hs.
  - apply Z.eqb_eq in Hs. destruct (Ha Hs) as [n ->]. apply IH.
  - destruct (raise_for_status status_code); [exact Herr|].
    destruct body; [exact Herr|by eexists].
Qed.

Lemma get_loop_data env attempts log d :
  (get_loop env attempts log).1 = Return (Some d) →
  ∃ k status_code retry_after,
    k ∈ attempts
    ∧ env k = Reply status_code retry_after (Json (Some d))
    ∧ status_code ≠ 429%Z ∧ raise_for_status status_code = false.
Proof.
  revert log. induction attempts as [|a attempts IH]; intros log; simpl; [done|].
  assert (∀ log', (get_loop env attempts log').1 = Return (Some d) →
            ∃ k status_code retry_after,
              k ∈ a :: attempts
              ∧ env k = Reply status_code retry_after (Json (Some d))
              ∧ status_code ≠ 429%Z ∧ raise_for_status status_code = false)
    as Hnext.
  { intros log' Hd. destruct (IH _ Hd) as (k & s & ra & Hk & H).
    exists k, s, ra. split; [by right|done]. }
  assert ((if (a =? 2)%nat then (Return (None : option Page), log ++ [Request])
           else get_loop env attempts
                  ((log ++ [Request]) ++ [Sleep (2 ^ Z.of_nat a)])).1
          = Return (Some d) →
          ∃ k status_code retry_after,
            k ∈ a :: attempts
            ∧ env k = Reply status_code retry_after (Json (Some d))
            ∧ status_code ≠ 429%Z ∧ raise_for_status status_code = false)
    as Herr.
  { destruct (a =? 2)%nat; [done|apply Hnext]. }
  destruct (env a) as [|status_code retry_after body] eqn:Henv; [exact Herr|].
  destruct (status_code =? 429)%Z eqn:Hs.
  - destruct (retry_wait retry_after); [apply Hnext|done].
  - destruct (raise_for_status status_code) eqn:Hr; [exact Herr|].
    destruct body as [|data]; [exact Herr|].
    simpl. intros [= ->]. exists a, status_code, retry_after.
    split; [by left|]. split; [done|]. split; [by apply Z.eqb_neq|done].
Qed.

(** X1: [get] never raises as long as every 429 reply among the three it can
    receive carries no [Retry-After] header or an integer one that
    [time.sleep] takes, that is one for which [time.sleep] raises none of
    [ValueError] (negative), [OverflowError] (too long for CPython) and
    [OSError] (refused by the clock): request errors, error statuses and
    undecodable bodies all end in a returned value. *)
Theorem get_returns_when_waits_readable env :
  (∀ k, k < 3 → wait_readable (env k)) →
  ∃ data, (get env).1 = Return data.
Proof.
  intros Hok. apply get_loop_returns.
  apply Forall_forall. intros k Hk. apply Hok.
  apply elem_of_seq in Hk. lia.
Qed.

(** X2: [get] hands out nothing of its own making: when it returns an
    object, one of its at most three requests was answered, with a status
    that is neither 429 nor 4xx/5xx, by a JSON body holding that object. *)
Theorem get_data_comes_from_a_reply env d :
  (get env).1 = Return (Some d) →
  ∃ k status_code retry_after,
    k < 3
    ∧ env k = Reply status_code retry_after (Json (Some d))
    ∧ status_code ≠ 429%Z ∧ raise_for_status status_code = false.
Proof.
  intros Hd. destruct (get_loop_data _ _ _ _ Hd) as (k & s & ra & Hk & H).
  exists k, s, ra. split; [|done]. apply elem_of_seq in Hk. lia.
Qed.

End ClientMore.

Lemma get_returns_when_waits_readable_witness :
  ∃ data, (get rate_limited_thrice).1 = Return data.
Proof.
  apply get_returns_when_waits_readable.
  intros k _. unfold rate_limited_thrice.
  destruct (k <? 3)%nat; simpl; [intros _; by exists 5%Z|done].
Defined.

Lemma get_data_comes_from_a_reply_witness :
  ∃ k status_code retry_after,
    k < 3
    ∧ second_try_succeeds k
      = Reply status_code retry_after (Json (Some (page_of [item_of (PInt 7) "g"] 1)))
    ∧ status_code ≠ 429%Z ∧ raise_for_status status_code = false.
Proof.
  apply get_data_comes_from_a_reply. reflexivity.
Defined.

(** * Further properties of the page walkers *)

Section WalkerMore.

Variable client_get : Z → outcome (option Page).
Variable existing_ids : gset pyval.
Variable max_pages : option Z.

Local Open Scope Z_scope.

Lemma pages_fetched_app t1 t2 :
  pages_fetched (t1 ++ t2) = pages_fetched t1 ++ pages_fetched t2.
Proof. unfold pages_fetched. apply omap_app. Qed.

Lemma seqZ_snoc (q : Z) : 0 ≤ q → seqZ 1 q ++ [q + 1] = seqZ 1 (q + 1).
Proof.
  intros Hq. rewrite (seqZ_app 1 q 1) by lia. f_equal.
  rewrite seqZ_cons by lia. rewrite seqZ_nil by lia. f_equal. lia.
Qed.

Lemma over_budget_false_within page :
  1 ≤ page → over_budget max_pages page = false → within_budget max_pages page.
Proof.
  unfold over_budget, within_budget. intros Hp Hb m -> Hm.
  destruct (m =? 0) eqn:E; [lia|]. simpl in Hb. lia.
Qed.

(** The invariant of the incremental walk: the pages asked for so far are
    1, ..., [page - 1], and [results] holds the unknown records they were
    served with. *)
Lemma fetch_incremental_loop_inv fuel page total_pages results trace r t :
  fetch_incremental_loop fuel client_get existing_ids max_pages
    page total_pages results trace = Some (r, t) →
  1 ≤ page ≤ 501 → total_pages ≤ 500 → within_budget max_pages (page - 1) →
  pages_fetched trace = seqZ 1 (page - 1) →
  results = concat (served_unknown client_get existing_ids <$> pages_fetched trace) →
  ∃ q, pages_fetched t = seqZ 1 q ∧ 0 ≤ q ≤ 500 ∧ within_budget max_pages q
       ∧ ∀ l, r = Return l →
           l = concat (served_unknown client_get existing_ids <$> pages_fetched t).
Proof.
  revert page total_pages results trace.
  induction fuel as [|fuel IH];
    intros page total_pages results trace Hloop Hpage Hcap Hbud Htrace Hres;
    [done|].
  simpl in Hloop.
  assert (∃ q, pages_fetched trace = seqZ 1 q ∧ 0 ≤ q ≤ 500
               ∧ within_budget max_pages q
               ∧ ∀ l, Return results = Return l →
                   l = concat (served_unknown client_get existing_ids <$> pages_fetched trace)) as Hhere.
  { exists (page - 1). split; [done|]. split; [lia|]. split; [done|].
    by intros l [= <-]. }
  destruct (page <=? total_pages) eqn:Hle; simpl in Hloop;
    [|injection Hloop as <- <-; exact Hhere].
  apply Z.leb_le in Hle.
  destruct (over_budget max_pages page) eqn:Hb;
    [injection Hloop as <- <-; exact Hhere|].
  assert (pages_fetched (trace ++ [Fetch page]) = seqZ 1 page) as Htrace'.
  { rewrite pages_fetched_app, Htrace. simpl.
    replace page with (page - 1 + 1) at 2 3 by lia. apply seqZ_snoc. lia. }
  assert (within_budget max_pages page) as Hbud'
    by (apply over_budget_false_within; [lia|done]).
  assert (∀ (l : list Item),
            served client_get page = [] →
            concat (served_unknown client_get existing_ids
                    <$> pages_fetched (trace ++ [Fetch page])) = results) as Hempty.
  { intros _ Hs. rewrite pages_fetched_app, fmap_app, concat_app. simpl.
    unfold served_unknown at 2. rewrite Hs, filter_nil. simpl.
    by rewrite app_nil_r. }
  destruct (client_get page) as [data|e] eqn:Hget.
  - destruct (falsy_data data) eqn:Hf.
    + injection Hloop as <- <-. exists page.
      split; [done|]. split; [lia|]. split; [done|].
      intros l [= <-]. symmetry. apply (Hempty []).
      unfold served. rewrite Hget. destruct data as [d|]; [|done].
      simpl in Hf. by destruct (page_results d).
    + destruct data as [d|]; [|done].
      assert (concat (served_unknown client_get existing_ids
                      <$> pages_fetched (trace ++ [Fetch page]))
              = results ++ new_on_page existing_ids d) as Hres'.
      { rewrite pages_fetched_app, fmap_app, concat_app. simpl.
        rewrite app_nil_r, <- Hres. f_equal.
        unfold served_unknown, served. by rewrite Hget. }
      destruct ((length (new_on_page existing_ids d) =? 0)%nat && (page >? 1)).
      * injection Hloop as <- <-. exists page.
        split; [done|]. split; [lia|]. split; [done|].
        by intros l [= <-].
      * eapply IH in Hloop; [exact Hloop|lia|apply capped_total_pages_le| | |].
        -- by replace (page + 1 - 1) with page by lia.
        -- rewrite pages_fetched_app. simpl. rewrite app_nil_r.
           by replace (page + 1 - 1) with page by lia.
        -- rewrite pages_fetched_app. simpl. by rewrite app_nil_r.
  - injection Hloop as <- <-. exists page.
    split; [done|]. split; [lia|]. split; [done|]. done.
Qed.

(** The same invariant for the full walk, without the filter. *)
Lemma fetch_all_pages_loop_inv fuel page total_pages results trace r t :
  fetch_all_pages_loop fuel client_get max_pages
    page total_pages results trace = Some (r, t) →
  1 ≤ page ≤ 501 → total_pages ≤ 500 → within_budget max_pages (page - 1) →
  pages_fetched trace = seqZ 1 (page - 1) →
  results = concat (served client_get <$> pages_fetched trace) →
  ∃ q, pages_fetched t = seqZ 1 q ∧ 0 ≤ q ≤ 500 ∧ within_budget max_pages q
       ∧ ∀ l, r = Return l →
           l = concat (served client_get <$> pages_fetched t).
Proof.
  revert page total_pages results trace.
  induction fuel as [|fuel IH];
    intros page total_pages results trace Hloop Hpage Hcap Hbud Htrace Hres;
    [done|].
  simpl in Hloop.
  assert (∃ q, pages_fetched trace = seqZ 1 q ∧ 0 ≤ q ≤ 500
               ∧ within_budget max_pages q
               ∧ ∀ l, Return results = Return l →
                   l = concat (served client_get <$> pages_fetched trace))
    as Hhere.
  { exists (page - 1). split; [done|]. split; [lia|]. split; [done|].
    by intros l [= <-]. }
  destruct (page <=? total_pages) eqn:Hle; simpl in Hloop;
    [|injection Hloop as <- <-; exact Hhere].
  apply Z.leb_le in Hle.
  destruct (over_budget max_pages page) eqn:Hb;
    [injection Hloop as <- <-; exact Hhere|].
  assert (pages_fetched (trace ++ [Fetch page]) = seqZ 1 page) as Htrace'.
  { rewrite pages_fetched_app, Htrace. simpl.
    replace page with (page - 1 + 1) at 2 3 by lia. apply seqZ_snoc. lia. }
  assert (within_budget max_pages page) as Hbud'
    by (apply over_budget_false_within; [lia|done]).
  assert (concat (served client_get <$> pages_fetched (trace ++ [Fetch page]))
          = results ++ served client_get page) as Hres'.
  { rewrite pages_fetched_app, fmap_app, concat_app. simpl.
    by rewrite app_nil_r, <- Hres. }
  destruct (client_get page) as [data|e] eqn:Hget.
  - destruct (falsy_data data) eqn:Hf.
    + injection Hloop as <- <-. exists page.
      split; [done|]. split; [lia|]. split; [done|].
      intros l [= <-]. rewrite Hres'. unfold served. rewrite Hget.
      destruct data as [d|]; [|by rewrite app_nil_r].
      simpl in Hf. destruct (page_results d); [done|]. by rewrite app_nil_r.
    + destruct data as [d|]; [|done].
      eapply IH in Hloop; [exact Hloop|lia|apply capped_total_pages_le| | |].
      * by replace (page + 1 - 1) with page by lia.
      * rewrite pages_fetched_app. simpl. rewrite app_nil_r.
        by replace (page + 1 - 1) with page by lia.
      * rewrite pages_fetched_app. simpl. rewrite app_nil_r, Hres'.
        unfold served. by rewrite Hget.
  - injection Hloop as <- <-. exists page.
    split; [done|]. split; [lia|]. split; [done|]. done.
Qed.

Lemma within_budget_0 : within_budget max_pages 0.
Proof. intros m _ _. lia. Qed.

(** X3: the incremental walker asks for pages 1, 2, ..., q in this order and
    for no other page; q is at most 500 and at most a truthy [max_pages]. *)
Theorem fetch_incremental_pages_in_order r t :
  fetch_incremental client_get existing_ids max_pages = Some (r, t) →
  ∃ q, pages_fetched t = seqZ 1 q ∧ 0 ≤ q ≤ 500 ∧ within_budget max_pages q.
Proof.
  unfold fetch_incremental. generalize 501%nat. intros fuel Hrun.
  destruct (fetch_incremental_loop_inv _ _ _ _ _ _ _ Hrun)
    as (q & Hq & Hle & Hb & _); [lia|lia|apply within_budget_0|done|done|].
  by exists q.
Qed.

(** X4: what the incremental walker returns is exactly, in page order, the
    records of the pages it asked for whose id is not known; in particular it
    never returns a record with a known id. *)
Theorem fetch_incremental_returns_the_unknown l t :
  fetch_incremental client_get existing_ids max_pages = Some (Return l, t) →
  l = concat (served_unknown client_get existing_ids <$> pages_fetched t)
  ∧ Forall (λ i, item_id i ∉ existing_ids) l.
Proof.
  unfold fetch_incremental. generalize 501%nat. intros fuel Hrun.
  destruct (fetch_incremental_loop_inv _ _ _ _ _ _ _ Hrun)
    as (q & _ & _ & _ & Hl); [lia|lia|apply within_budget_0|done|done|].
  specialize (Hl l eq_refl). split; [done|].
  rewrite Hl. apply Forall_concat, Forall_fmap, Forall_forall.
  intros p _. apply Forall_forall. intros i Hi.
  by apply list_elem_of_filter in Hi as [Hi _].
Qed.

(** X6: the full walk returns exactly, in page order, all the records of the
    pages it asked for, and these pages are 1, 2, ..., q with q at most 500
    and at most a truthy [max_pages]. *)
Theorem fetch_all_pages_returns_all r t :
  fetch_all_pages client_get max_pages = Some (r, t) →
  ∃ q, pages_fetched t = seqZ 1 q ∧ 0 ≤ q ≤ 500 ∧ within_budget max_pages q
       ∧ ∀ l, r = Return l → l = concat (served client_get <$> pages_fetched t).
Proof.
  unfold fetch_all_pages. generalize 501%nat. intros fuel Hrun.
  apply (fetch_all_pages_loop_inv _ _ _ _ _ _ _ Hrun);
    [lia|lia|apply within_budget_0|done|done].
Qed.

End WalkerMore.

Section WalkerStops.

Variable client_get : Z → outcome (option Page).
Variable existing_ids : gset pyval.
Variable max_pages : option Z.

Local Open Scope Z_scope.

Lemma walk_trace_continue first n :
  walk_trace first n = continue_trace first n ++ [Fetch (first + Z.of_nat n)].
Proof.
  revert first. induction n as [|n IH]; intros first; simpl.
  - by rewrite Z.add_0_r.
  - rewrite IH. replace (first + 1 + Z.of_nat n) with (first + Z.of_nat (S n)) by lia.
    done.
Qed.

(** The walk goes through the pages [ds] it continues after. *)
Lemma fetch_incremental_loop_continues ds fuel page total_pages results trace :
  (∀ k d_k, ds !! k = Some d_k →
     continues client_get existing_ids (page + Z.of_nat k) d_k) →
  page ≤ total_pages →
  over_budget max_pages (page + Z.of_nat (length ds)) = false →
  ∃ total_pages',
    page + Z.of_nat (length ds) ≤ total_pages'
    ∧ fetch_incremental_loop (length ds + fuel) client_get existing_ids max_pages
        page total_pages results trace
      = fetch_incremental_loop fuel client_get existing_ids max_pages
          (page + Z.of_nat (length ds)) total_pages'
          (results ++ concat (new_on_page existing_ids <$> ds))
          (trace ++ continue_trace page (length ds)).
Proof.
  revert page total_pages results trace.
  induction ds as [|d0 ds IH]; intros page total_pages results trace Hcont Hle Hbudget.
  - exists total_pages. simpl. rewrite Z.add_0_r, !app_nil_r. done.
  - destruct (Hcont 0%nat d0 eq_refl) as (Hget & Hdata & Hgo & Hnext).
    rewrite Z.add_0_r in Hget, Hgo, Hnext.
    destruct (IH (page + 1) (capped_total_pages d0)
                (results ++ new_on_page existing_ids d0)
                ((trace ++ [Fetch page]) ++ [Delay]))
      as (total_pages' & Hle' & Heq).
    + intros k d_k Hk. specialize (Hcont (S k) d_k Hk).
      by replace (page + 1 + Z.of_nat k) with (page + Z.of_nat (S k)) by lia.
    + done.
    + by replace (page + 1 + Z.of_nat (length ds))
        with (page + Z.of_nat (length (d0 :: ds))) by (simpl length; lia).
    + exists total_pages'. split; [simpl length; lia|].
      change (length (d0 :: ds) + fuel)%nat with (S (length ds + fuel)).
      cbn [fetch_incremental_loop].
      rewrite (proj2 (Z.leb_le _ _) Hle).
      rewrite (over_budget_mono max_pages (page + Z.of_nat (length (d0 :: ds))) page
                 ltac:(lia) Hbudget).
      rewrite Hget, Hdata. cbn [negb].
      assert ((length (new_on_page existing_ids d0) =? 0)%nat && (page >? 1) = false)
        as ->.
      { destruct Hgo as [->|Hnew]; [by rewrite andb_false_r|].
        by destruct (new_on_page existing_ids d0). }
      rewrite Heq. rewrite fmap_cons. simpl.
      replace (page + 1 + Z.of_nat (length ds))
        with (page + Z.pos (Pos.of_succ_nat (length ds))) by lia.
      by rewrite <- !app_assoc.
Qed.

Lemma continues_length ds :
  (∀ k d_k, ds !! k = Some d_k →
     continues client_get existing_ids (1 + Z.of_nat k) d_k) →
  (length ds ≤ 499)%nat.
Proof.
  intros Hcont. destruct (decide (ds = [])) as [->|Hne]; [simpl; lia|].
  destruct (lookup_lt_is_Some_2 ds (length ds - 1)) as [d_k Hk].
  { destruct ds; [done|]. simpl. lia. }
  destruct (Hcont _ _ Hk) as (_ & _ & _ & Hnext).
  pose proof (capped_total_pages_le d_k). lia.
Qed.

(** X5: a failed fetch ends the walk of a descriptor without losing what was
    gathered.  If the walk goes on after pages 1, ..., n and the client then
    returns [None] (or an empty object) for page n+1, the walker returns the
    new records of pages 1, ..., n; if the client raises instead, the
    exception escapes the walker. *)
Theorem fetch_incremental_keeps_partial_results (ds : list Page) :
  (∀ k d_k, ds !! k = Some d_k →
     continues client_get existing_ids (1 + Z.of_nat k) d_k) →
  over_budget max_pages (1 + Z.of_nat (length ds)) = false →
  (∀ data, client_get (1 + Z.of_nat (length ds)) = Return data →
           falsy_data data = true →
           fetch_incremental client_get existing_ids max_pages
           = Some (Return (concat (new_on_page existing_ids <$> ds)),
                   walk_trace 1 (length ds)))
  ∧ (∀ e, client_get (1 + Z.of_nat (length ds)) = Raise e →
          fetch_incremental client_get existing_ids max_pages
          = Some (Raise e, walk_trace 1 (length ds))).
Proof.
  intros Hcont Hbudget.
  pose proof (continues_length ds Hcont) as Hlen.
  unfold fetch_incremental.
  replace 501%nat with (length ds + S (500 - length ds))%nat by lia.
  generalize (500 - length ds)%nat. intros fuel.
  destruct (fetch_incremental_loop_continues ds (S fuel) 1 1 [] [] Hcont)
    as (total_pages' & Hle & ->); [lia|done|].
  rewrite walk_trace_continue. cbn [fetch_incremental_loop].
  rewrite (proj2 (Z.leb_le _ _) Hle), Hbudget. cbn [negb].
  split.
  - intros data -> ->. done.
  - intros e ->. done.
Qed.

End WalkerStops.

Section WalkerCompare.

Variable client_get : Z → outcome (option Page).
Variable max_pages : option Z.

Local Open Scope Z_scope.

Lemma fetch_all_pages_loop_extends fuel page total_pages results trace r t :
  fetch_all_pages_loop fuel client_get max_pages
    page total_pages results trace = Some (r, t) →
  trace `prefix_of` t ∧ ∀ l, r = Return l → results `prefix_of` l.
Proof.
  revert page total_pages results trace.
  induction fuel as [|fuel IH]; intros page total_pages results trace; [done|].
  simpl.
  assert (∀ (tr : list walk_event),
            trace `prefix_of` tr →
            Some (Return results, tr) = Some (r, t) →
            trace `prefix_of` t ∧ ∀ l, r = Return l → results `prefix_of` l)
    as Hret.
  { intros tr Htr [= <- <-]. split; [done|]. by intros l [= <-]. }
  destruct (page <=? total_pages); simpl; [|by apply Hret].
  destruct (over_budget max_pages page); [by apply Hret|].
  destruct (client_get page) as [data|e].
  - destruct (falsy_data data); [apply Hret; by apply prefix_app_r|].
    destruct data as [d|]; [|apply Hret; by apply prefix_app_r].
    intros Hloop. apply IH in Hloop as [Ht Hl]. split.
    + etrans; [|exact Ht]. rewrite <- app_assoc. by apply prefix_app_r.
    + intros l Hr. etrans; [|by apply Hl]. by apply prefix_app_r.
  - intros [= <- <-]. split; [by apply prefix_app_r|done].
Qed.

Lemma new_on_page_nothing_known d :
  new_on_page ∅ d = default [] (page_results d).
Proof.
  unfold new_on_page. induction (default [] (page_results d)) as [|i l IH]; [done|].
  rewrite filter_cons, decide_True by apply not_elem_of_empty. by rewrite IH.
Qed.

Lemma fetch_loops_in_step fuel existing_ids page total_pages
    results trace ri ti rf tf :
  fetch_incremental_loop fuel client_get existing_ids max_pages
    page total_pages results trace = Some (ri, ti) →
  fetch_all_pages_loop fuel client_get max_pages
    page total_pages results trace = Some (rf, tf) →
  (∀ d, new_on_page existing_ids d = default [] (page_results d)) →
  ∀ li lf, ri = Return li → rf = Return lf → li `prefix_of` lf.
Proof.
  intros Hi Hf Hall. revert page total_pages results trace Hi Hf.
  induction fuel as [|fuel IH]; intros page total_pages results trace; [done|].
  simpl.
  destruct (page <=? total_pages); simpl;
    [|by intros [= <- <-] [= <- <-] li lf [= <-] [= <-]].
  destruct (over_budget max_pages page);
    [by intros [= <- <-] [= <- <-] li lf [= <-] [= <-]|].
  destruct (client_get page) as [data|e];
    [|by intros [= <- <-] [= <- <-] li lf [= <-] [= <-]].
  destruct (falsy_data data);
    [by intros [= <- <-] [= <- <-] li lf [= <-] [= <-]|].
  destruct data as [d|];
    [|by intros [= <- <-] [= <- <-] li lf [= <-] [= <-]].
  rewrite Hall.
  destruct ((length (default [] (page_results d)) =? 0)%nat && (page >? 1)).
  - intros [= <- <-] Hf li lf [= <-] Hlf.
    apply fetch_all_pages_loop_extends in Hf as [_ Hf]. by apply Hf.
  - apply IH.
Qed.

Lemma fetch_traces_in_step fuel existing_ids page total_pages
    results_i results_f trace ri ti rf tf :
  fetch_incremental_loop fuel client_get existing_ids max_pages
    page total_pages results_i trace = Some (ri, ti) →
  fetch_all_pages_loop fuel client_get max_pages
    page total_pages results_f trace = Some (rf, tf) →
  ti `prefix_of` tf.
Proof.
  revert page total_pages results_i results_f trace.
  induction fuel as [|fuel IH];
    intros page total_pages results_i results_f trace; [done|].
  simpl.
  destruct (page <=? total_pages); simpl; [|by intros [= _ <-] [= _ <-]].
  destruct (over_budget max_pages page); [by intros [= _ <-] [= _ <-]|].
  destruct (client_get page) as [data|e]; [|by intros [= _ <-] [= _ <-]].
  destruct (falsy_data data); [by intros [= _ <-] [= _ <-]|].
  destruct data as [d|]; [|by intros [= _ <-] [= _ <-]].
  destruct ((length (new_on_page existing_ids d) =? 0)%nat && (page >? 1)).
  - intros [= _ <-] Hf.
    apply fetch_all_pages_loop_extends in Hf as [Hf _].
    etrans; [|exact Hf]. by apply prefix_app_r.
  - apply IH.
Qed.

(** X7: for the same client and the same budget, the incremental walk asks
    for an initial part of what the full walk asks for, never for a page the
    full walk would not fetch; and when no id is known, the records it
    returns are an initial part of the records the full walk returns. *)
Theorem fetch_incremental_within_fetch_all_pages existing_ids ri ti rf tf :
  fetch_incremental client_get existing_ids max_pages = Some (ri, ti) →
  fetch_all_pages client_get max_pages = Some (rf, tf) →
  ti `prefix_of` tf
  ∧ (existing_ids = ∅ → ∀ li lf, ri = Return li → rf = Return lf →
       li `prefix_of` lf).
Proof.
  unfold fetch_incremental, fetch_all_pages. generalize 501%nat.
  intros fuel Hi Hf. split.
  - by eapply fetch_traces_in_step.
  - intros ->. eapply fetch_loops_in_step; [exact Hi|exact Hf|].
    apply new_on_page_nothing_known.
Qed.

End WalkerCompare.

(** * Further properties of the snapshot reader and writer *)

Section ReaderMore.

Implicit Types (headers : list string) (row : list pyval) (c : string).

Lemma none_to_empty_not_None v : none_to_empty v ≠ PNone.
Proof. by destruct v. Qed.

Lemma read_rows_no_None headers id_idx rows data ids data' ids' :
  read_rows headers id_idx rows data ids = inr (data', ids') →
  Forall (λ r : Row, ∀ k, r !! k ≠ Some PNone) data → PNone ∉ ids →
  Forall (λ r : Row, ∀ k, r !! k ≠ Some PNone) data' ∧ PNone ∉ ids'.
Proof.
  revert data ids. induction rows as [|row rows IH]; intros data ids; simpl.
  - by intros [= <- <-].
  - assert (Forall (λ r : Row, ∀ k, r !! k ≠ Some PNone) data →
            Forall (λ r : Row, ∀ k, r !! k ≠ Some PNone)
                   (data ++ [none_to_empty <$> dict_zip headers row])) as Hdata.
    { intros Hd. apply Forall_app. split; [done|]. constructor; [|done].
      intros k. rewrite lookup_fmap.
      destruct (dict_zip headers row !! k) as [v|]; [|done]. simpl.
      intros [= Hv]. by apply none_to_empty_not_None in Hv. }
    destruct id_idx as [i|];
      [|intros Hread Hd Hi; eapply IH; [exact Hread|by apply Hdata|done]].
    destruct (row !! i) as [v|]; [|done].
    destruct v; intros Hread Hd Hi; (eapply IH; [exact Hread|by apply Hdata|]);
      try done; rewrite not_elem_of_union, not_elem_of_singleton; by split.
Qed.

Lemma read_rows_length headers id_idx rows data ids data' ids' :
  read_rows headers id_idx rows data ids = inr (data', ids') →
  length data' = (length data + length rows)%nat.
Proof.
  revert data ids. induction rows as [|row rows IH]; intros data ids; simpl.
  - intros [= <- <-]. lia.
  - destruct id_idx as [i|].
    + destruct (row !! i) as [v|]; [|done].
      destruct v; intros Hread; apply IH in Hread;
        rewrite Hread, length_app; simpl; lia.
    + intros Hread. apply IH in Hread. rewrite Hread, length_app. simpl. lia.
Qed.

(** X8: the reader never hands out [None]: no loaded row holds a [None]
    value (empty cells are read as [""]) and [None] is never among the known
    ids; and when the sheet is read without an error, there is exactly one
    loaded row per data row. *)
Theorem load_existing_rows_has_no_None (f : StoreFile) (sheet_name c : string) :
  Forall (λ r : Row, ∀ k, r !! k ≠ Some PNone) (load_existing_rows f sheet_name c).1
  ∧ (PNone ∉ (load_existing_rows f sheet_name c).2)
  ∧ (∀ sheets header_row rows result,
       f = FileWorkbook sheets →
       get_sheet sheets sheet_name = Some (header_row :: rows) →
       load_existing_rows_body f sheet_name c = inr result →
       length (load_existing_rows f sheet_name c).1 = length rows).
Proof.
  assert (Forall (λ r : Row, ∀ k, r !! k ≠ Some PNone) (@nil Row)
          ∧ PNone ∉ (∅ : gset pyval)) as Hnil
    by (split; [constructor|apply not_elem_of_empty]).
  assert (Forall (λ r : Row, ∀ k, r !! k ≠ Some PNone)
            (load_existing_rows f sheet_name c).1
          ∧ PNone ∉ (load_existing_rows f sheet_name c).2) as [H1 H2].
  { unfold load_existing_rows, load_existing_rows_body.
    destruct f as [| |sheets]; simpl; try exact Hnil.
    destruct (decide (sheet_name ∉ sheetnames sheets)); [exact Hnil|].
    destruct (get_sheet sheets sheet_name) as [[|header_row rows]|];
      try exact Hnil.
    destruct (read_rows _ _ rows [] ∅) as [e|[data ids]] eqn:Hread;
      [exact Hnil|].
    eapply read_rows_no_None; [exact Hread|constructor|apply not_elem_of_empty]. }
  split; [exact H1|]. split; [exact H2|].
  intros sheets header_row rows result -> Hsheet.
  unfold load_existing_rows, load_existing_rows_body. simpl.
  destruct (decide (sheet_name ∉ sheetnames sheets)) as [Hno|_].
  { apply get_sheet_None in Hno. congruence. }
  rewrite Hsheet.
  destruct (read_rows _ _ rows [] ∅) as [e|[data ids]] eqn:Hread; [done|].
  intros _. simpl. by apply read_rows_length in Hread.
Qed.

Lemma read_rows_ids_from_rows headers c rows data ids data' ids' :
  at_most_once c headers →
  read_rows headers (index_of c headers) rows data ids = inr (data', ids') →
  (∀ v, v ∈ ids → ∃ r, r ∈ data ∧ r !! c = Some v) →
  ∀ v, v ∈ ids' → ∃ r, r ∈ data' ∧ r !! c = Some v.
Proof.
  intros Honce. revert data ids.
  induction rows as [|row rows IH]; intros data ids Hread Hinv; simpl in Hread.
  - by injection Hread as <- <-.
  - destruct (index_of c headers) as [i|] eqn:Hidx.
    + destruct (row !! i) as [v|] eqn:Hv; [|done].
      assert (∀ w, w ∈ ids → ∃ r,
                r ∈ data ++ [none_to_empty <$> dict_zip headers row]
                ∧ r !! c = Some w) as Hold.
      { intros w Hw. destruct (Hinv w Hw) as (r & Hr & Hrc).
        exists r. split; [apply elem_of_app; by left|done]. }
      assert (v ≠ PNone →
              ∀ w, w ∈ {[ v ]} ∪ ids → ∃ r,
                r ∈ data ++ [none_to_empty <$> dict_zip headers row]
                ∧ r !! c = Some w) as Hnew.
      { intros Hne w Hw. apply elem_of_union in Hw as [Hw|Hw]; [|by apply Hold].
        apply elem_of_singleton in Hw as ->.
        exists (none_to_empty <$> dict_zip headers row).
        split; [apply elem_of_app; right; by apply list_elem_of_singleton|].
        unfold dict_zip. rewrite lookup_fmap.
        apply index_of_Some in Hidx.
        rewrite (foldl_zip_lookup headers row ∅ c i v); [by destruct v| |done|done].
        intros j Hj. by apply (Honce j i). }
      destruct v; (eapply IH; [exact Hread|]); try exact Hold; by apply Hnew.
    + eapply IH; [exact Hread|]. intros w Hw.
      destruct (Hinv w Hw) as (r & Hr & Hrc).
      exists r. split; [apply elem_of_app; by left|done].
Qed.

Lemma load_existing_rows_ids_from_rows (f : StoreFile) (sheet_name c : string) :
  id_column_unambiguous f sheet_name c →
  ∀ v, v ∈ (load_existing_rows f sheet_name c).2 →
       ∃ r, r ∈ (load_existing_rows f sheet_name c).1 ∧ r !! c = Some v.
Proof.
  unfold load_existing_rows, load_existing_rows_body, id_column_unambiguous.
  destruct f as [| |sheets]; simpl; try (intros _ v Hv; by apply elem_of_empty in Hv).
  destruct (decide (sheet_name ∉ sheetnames sheets));
    [intros _ v Hv; by apply elem_of_empty in Hv|].
  destruct (get_sheet sheets sheet_name) as [[|header_row rows]|];
    try (intros _ v Hv; by apply elem_of_empty in Hv).
  intros Honce.
  destruct (read_rows _ _ rows [] ∅) as [e|[data ids]] eqn:Hread; simpl;
    [intros v Hv; by apply elem_of_empty in Hv|].
  eapply read_rows_ids_from_rows; [exact Honce|exact Hread|].
  intros v Hv. by apply elem_of_empty in Hv.
Qed.

(** X9: when the header names the identifier column once, the known ids and
    the loaded rows agree: every known id is the identifier of a loaded row,
    and every truthy identifier of a loaded row is a known id. *)
Theorem load_existing_rows_ids_match_rows (f : StoreFile) (sheet_name c : string) :
  id_column_unambiguous f sheet_name c →
  (∀ v, v ∈ (load_existing_rows f sheet_name c).2 →
        ∃ r, r ∈ (load_existing_rows f sheet_name c).1 ∧ r !! c = Some v)
  ∧ (∀ r, r ∈ (load_existing_rows f sheet_name c).1 →
          truthy (py_get r c) = true →
          py_get r c ∈ (load_existing_rows f sheet_name c).2).
Proof.
  intros Honce. split.
  - by apply load_existing_rows_ids_from_rows.
  - by apply load_existing_rows_cover.
Qed.

Lemma index_of_not_elem c headers : c ∉ headers → index_of c headers = None.
Proof.
  intros Hc. destruct (index_of c headers) as [i|] eqn:Hidx; [|done].
  apply index_of_Some in Hidx. exfalso. apply Hc.
  by apply list_elem_of_lookup_2 in Hidx.
Qed.

Lemma read_rows_without_ids headers rows data ids :
  read_rows headers None rows data ids
  = inr (data ++ ((λ row, none_to_empty <$> dict_zip headers row) <$> rows), ids).
Proof.
  revert data. induction rows as [|row rows IH]; intros data; simpl.
  - by rewrite app_nil_r.
  - rewrite IH, <- app_assoc. done.
Qed.

(** X10: a sheet whose header lacks the identifier column is still loaded
    row by row, but no id is known, so that every fetched record will count
    as new. *)
Theorem load_existing_rows_without_id_column sheets (sheet_name c : string)
    header_row rows :
  get_sheet sheets sheet_name = Some (header_row :: rows) →
  c ∉ header_name <$> header_row →
  load_existing_rows (FileWorkbook sheets) sheet_name c
  = ((λ row, none_to_empty <$> dict_zip (header_name <$> header_row) row) <$> rows,
     ∅).
Proof.
  intros Hsheet Hc. unfold load_existing_rows, load_existing_rows_body. simpl.
  destruct (decide (sheet_name ∉ sheetnames sheets)) as [Hno|_].
  { apply get_sheet_None in Hno. congruence. }
  rewrite Hsheet, (index_of_not_elem _ _ Hc), read_rows_without_ids. done.
Qed.

End ReaderMore.

Section RoundTrip.

(** How the workbook library gives back a cell that was written with value
    [v]: as [stored v].  It gives back every value as it was written, except
    that it may confuse [None] and the empty string. *)
Variable stored : pyval → pyval.
Hypothesis stored_faithful : ∀ v, none_to_empty (stored v) = none_to_empty v.

Implicit Types (headers : list string) (c : string) (rows : list Row).

Lemma none_to_empty_truthy v w :
  truthy w = true → none_to_empty v = none_to_empty w → v = w.
Proof.
  intros Hw Heq. destruct w as [|z|s]; [done| |].
  - destruct v; simpl in Heq; [discriminate|exact Heq|exact Heq].
  - destruct v; simpl in Heq; [|exact Heq|exact Heq].
    injection Heq as <-. discriminate Hw.
Qed.

Lemma stored_truthy v w : truthy w = true → stored v = w ↔ v = w.
Proof.
  intros Hw. split; intros Heq.
  - apply (none_to_empty_truthy _ _ Hw).
    by rewrite <- (stored_faithful v), Heq.
  - subst v. apply (none_to_empty_truthy _ _ Hw), stored_faithful.
Qed.

Lemma stored_get_truthy (r : Row) c v :
  truthy v = true →
  stored (py_get_default r c (PStr "")) = v ↔ py_get r c = v.
Proof.
  intros Hv. rewrite (stored_truthy _ _ Hv). unfold py_get, py_get_default.
  destruct (r !! c); simpl; [done|].
  split; intros <-; discriminate Hv.
Qed.

Lemma header_name_stored h : header_name (stored (PStr h)) = h.
Proof.
  pose proof (stored_faithful (PStr h)) as Hh.
  destruct (stored (PStr h)); simpl in *; congruence.
Qed.

Lemma headers_stored headers :
  header_name <$> (stored <$> (PStr <$> headers)) = headers.
Proof.
  induction headers as [|h headers IH]; [done|].
  by rewrite !fmap_cons, header_name_stored, IH.
Qed.

Lemma foldl_zip_fmap headers (g : string → pyval) (m : Row) k :
  foldl (λ d kv, <[ kv.1 := kv.2 ]> d) m (zip headers (g <$> headers)) !! k
  = if decide (k ∈ headers) then Some (g k) else m !! k.
Proof.
  revert m. induction headers as [|h headers IH]; intros m; [done|].
  rewrite fmap_cons. simpl. rewrite IH.
  destruct (decide (k ∈ headers)) as [Hin|Hnot].
  - rewrite decide_True; [done|by right].
  - destruct (decide (k = h)) as [->|Hne].
    + rewrite decide_True by left. by rewrite lookup_insert_eq.
    + rewrite decide_False by (rewrite elem_of_cons; tauto).
      by rewrite lookup_insert_ne.
Qed.

Lemma read_back_lookup headers (r : Row) k :
  read_back headers r !! k
  = if decide (k ∈ headers)
    then Some (none_to_empty (py_get_default r k (PStr "")))
    else None.
Proof.
  unfold read_back. induction headers as [|h headers IH]; [done|].
  rewrite fmap_cons. simpl.
  destruct (decide (k = h)) as [->|Hne].
  - rewrite lookup_insert_eq, decide_True; [done|left].
  - rewrite lookup_insert_ne, IH by done.
    destruct (decide (k ∈ headers)) as [Hin|Hnot].
    + rewrite decide_True; [done|by right].
    + rewrite decide_False; [done|]. rewrite elem_of_cons. tauto.
Qed.

Lemma dict_of_cells_back headers (r : Row) :
  none_to_empty <$> dict_zip headers (cells_back stored headers r) = read_back headers r.
Proof.
  apply map_eq. intros k. rewrite lookup_fmap, read_back_lookup.
  unfold dict_zip, cells_back. rewrite <- list_fmap_compose.
  rewrite foldl_zip_fmap, lookup_empty.
  destruct (decide (k ∈ headers)); [|done]. simpl. by rewrite stored_faithful.
Qed.

Lemma read_rows_written headers c rows data ids :
  ∃ ids',
    read_rows headers (index_of c headers) (cells_back stored headers <$> rows) data ids
    = inr (data ++ (read_back headers <$> rows), ids')
    ∧ ∀ v, v ∈ ids' ↔
        v ∈ ids
        ∨ (c ∈ headers ∧ v ≠ PNone
           ∧ ∃ r, r ∈ rows ∧ stored (py_get_default r c (PStr "")) = v).
Proof.
  revert data ids. induction rows as [|r rows IH]; intros data ids.
  - exists ids. simpl. rewrite app_nil_r. split; [done|].
    intros v. split; [by left|]. intros [?|(_ & _ & r & Hr & _)]; [done|].
    by apply elem_of_nil in Hr.
  - rewrite !fmap_cons. cbn [read_rows]. rewrite dict_of_cells_back.
    destruct (index_of c headers) as [i|] eqn:Hidx.
    + pose proof (index_of_Some _ _ _ Hidx) as Hi.
      assert (c ∈ headers) as Hc by (by apply list_elem_of_lookup_2 in Hi).
      assert (cells_back stored headers r !! i = Some (stored (py_get_default r c (PStr ""))))
        as ->.
      { unfold cells_back. rewrite !list_lookup_fmap, Hi. done. }
      set (v0 := stored (py_get_default r c (PStr ""))).
      assert (∀ ids0,
                (∀ v, v ∈ ids0 ↔ v ∈ ids ∨ (v0 ≠ PNone ∧ v = v0)) →
                ∃ ids',
                  read_rows headers (Some i) (cells_back stored headers <$> rows)
                    (data ++ [read_back headers r]) ids0
                  = inr (data ++ read_back headers r :: (read_back headers <$> rows),
                         ids')
                  ∧ ∀ v, v ∈ ids' ↔
                      v ∈ ids
                      ∨ (c ∈ headers ∧ v ≠ PNone
                         ∧ ∃ r', r' ∈ r :: rows
                                 ∧ stored (py_get_default r' c (PStr "")) = v))
        as Hstep.
      { intros ids0 Hids0. destruct (IH (data ++ [read_back headers r]) ids0)
          as (ids' & Hread & Hids').
        exists ids'. rewrite Hread, <- app_assoc. split; [done|].
        intros v. rewrite Hids', Hids0. split.
        - intros [[?|[Hne ->]]|(_ & Hv & r' & Hr' & Hs)].
          + by left.
          + right. split; [done|]. split; [done|]. exists r. split; [left|done].
          + right. split; [done|]. split; [done|]. exists r'. split; [by right|done].
        - intros [?|(_ & Hv & r' & Hr' & Hs)]; [by left; left|].
          apply elem_of_cons in Hr' as [->|Hr'].
          + left. right. fold v0 in Hs. subst v. by split.
          + right. split; [done|]. split; [done|]. by exists r'. }
      destruct v0 eqn:Hv0; apply Hstep; intros v.
      * split; [by left|]. intros [?|[? _]]; done.
      * rewrite elem_of_union, elem_of_singleton. split.
        -- intros [->|?]; [by right|by left].
        -- intros [?|[_ ->]]; [by right|by left].
      * rewrite elem_of_union, elem_of_singleton. split.
        -- intros [->|?]; [by right|by left].
        -- intros [?|[_ ->]]; [by right|by left].
    + destruct (IH (data ++ [read_back headers r]) ids) as (ids' & Hread & Hids').
      exists ids'. rewrite Hread, <- app_assoc. split; [done|].
      intros v. rewrite Hids'. apply index_of_None in Hidx.
      split; (intros [?|(Hc & _)]; [by left|done]).
Qed.

Lemma load_written_sheet sheets (sheet_name c : string) rows headers :
  get_sheet sheets sheet_name
  = Some (saved stored (write_sheet sheet_name rows headers)).2 →
  (load_existing_rows (FileWorkbook sheets) sheet_name c).1
  = read_back headers <$> rows
  ∧ ∀ v, v ∈ (load_existing_rows (FileWorkbook sheets) sheet_name c).2
         ↔ c ∈ headers ∧ v ≠ PNone
           ∧ ∃ r, r ∈ rows ∧ stored (py_get_default r c (PStr "")) = v.
Proof.
  intros Hsheet. unfold load_existing_rows, load_existing_rows_body. simpl.
  destruct (decide (sheet_name ∉ sheetnames sheets)) as [Hno|_].
  { apply get_sheet_None in Hno. congruence. }
  rewrite Hsheet. simpl. rewrite headers_stored.
  destruct (read_rows_written headers c rows [] ∅) as (ids' & Hread & Hids).
  unfold cells_back in Hread.
  rewrite <- list_fmap_compose. unfold compose.
  erewrite (list_fmap_ext _ _ rows) in Hread; [rewrite Hread|done].
  simpl. split; [done|]. intros v. rewrite Hids. split.
  - intros [Hin|?]; [by apply elem_of_empty in Hin|done].
  - intros ?. by right.
Qed.

(** X11: the writer and the reader agree.  Reading a sheet that [write_sheet]
    wrote gives one row per written row, in order, each holding exactly the
    header columns with a missing or [None] value read as [""]; and the
    truthy known ids are exactly the truthy identifiers of the written rows
    (none when the headers lack the identifier column). *)
Theorem load_existing_rows_of_written_sheet sheets (sheet_name c : string)
    rows headers :
  get_sheet sheets sheet_name
  = Some (saved stored (write_sheet sheet_name rows headers)).2 →
  (load_existing_rows (FileWorkbook sheets) sheet_name c).1
  = read_back headers <$> rows
  ∧ ∀ v, truthy v = true →
      (v ∈ (load_existing_rows (FileWorkbook sheets) sheet_name c).2
       ↔ c ∈ headers ∧ ∃ r, r ∈ rows ∧ py_get r c = v).
Proof.
  intros Hsheet.
  destruct (load_written_sheet sheets sheet_name c rows headers Hsheet)
    as [Hrows Hids].
  split; [exact Hrows|]. intros v Hv. rewrite Hids. split.
  - intros (Hc & _ & r & Hr & Hs). split; [done|]. exists r. split; [done|].
    by apply (stored_get_truthy r c v Hv).
  - intros (Hc & r & Hr & Hs). split; [done|]. split.
    { intros ->. discriminate Hv. }
    exists r. split; [done|]. by apply (stored_get_truthy r c v Hv).
Qed.

End RoundTrip.

(** * Further properties of a run of [main] over one category *)

Section RunMore.

Variable columns : Item → Row.

Lemma merge_nothing_new_truthy existing ex_ids fetched :
  (∀ i, i ∈ fetched → has_id i → item_id i ∈ ex_ids) →
  merge columns existing ex_ids fetched = existing.
Proof.
  intros Hknown. rewrite merge_closed_form.
  rewrite filter_none; [by rewrite app_nil_r|].
  apply Forall_forall. intros i Hi Hnew. apply Hnew.
  apply elem_of_first_by_id, list_elem_of_filter in Hi as [Hid Hi].
  by apply Hknown.
Qed.

Lemma merge_has_every_new_id existing ex_ids fetched i :
  i ∈ fetched → has_id i → item_id i ∉ ex_ids →
  ∃ r, r ∈ merge columns existing ex_ids fetched ∧ py_get r TMDB_ID = item_id i.
Proof.
  intros Hi Hid Hnew.
  assert (item_id i ∈ item_id <$> first_by_id (filter has_id fetched)) as Hin.
  { apply (elem_of_list_to_set (C:=gset pyval)). rewrite first_by_id_ids.
    apply elem_of_list_to_set, list_elem_of_fmap_2, list_elem_of_filter.
    by split. }
  apply list_elem_of_fmap in Hin as (i' & Heq & Hi').
  exists (normalize columns i'). split.
  - rewrite merge_closed_form. apply elem_of_app. right.
    apply list_elem_of_fmap_2, list_elem_of_filter. split; [|done].
    by rewrite <- Heq.
  - apply elem_of_first_by_id, list_elem_of_filter in Hi' as [Hid' _].
    fold (row_id (normalize columns i')).
    by rewrite row_id_normalize_has_id.
Qed.

Lemma merge_keeps_existing existing ex_ids fetched :
  existing `prefix_of` merge columns existing ex_ids fetched.
Proof. rewrite merge_closed_form. by apply prefix_app_r. Qed.

Section SecondRun.

Variable stored : pyval → pyval.
Hypothesis stored_faithful : ∀ v, none_to_empty (stored v) = none_to_empty v.

(** X12: a second run over an unchanged remote adds nothing.  Let a run
    start from a file whose sheet for the category names the identifier
    column at most once in its header (or from no file), let it write its
    rows with headers that include the identifier column, and let the next
    run open that sheet and fetch the same records: its output is exactly the
    rows of the first run as they read back, no row more, none less, in the
    same order. *)
Theorem second_run_adds_nothing incremental (f : StoreFile) (sheet_name : string)
    fetched headers sheets :
  id_column_unambiguous f sheet_name TMDB_ID →
  TMDB_ID ∈ headers →
  get_sheet sheets sheet_name
  = Some (saved stored
            (write_sheet sheet_name
               (sync_category columns incremental f sheet_name fetched)
               headers)).2 →
  sync_category columns true (FileWorkbook sheets) sheet_name fetched
  = read_back headers <$> sync_category columns incremental f sheet_name fetched.
Proof.
  intros Honce Hheaders Hsheet.
  destruct (load_written_sheet stored stored_faithful
              sheets sheet_name TMDB_ID _ headers Hsheet) as [Hrows Hids].
  unfold sync_category at 1. unfold prior_state. simpl.
  rewrite merge_nothing_new_truthy; [exact Hrows|].
  intros i Hi Hid. apply Hids. split; [done|]. split.
  { intros Hnone. unfold has_id in Hid. by rewrite Hnone in Hid. }
  cut (∃ r, r ∈ sync_category columns incremental f sheet_name fetched
            ∧ py_get r TMDB_ID = item_id i).
  { intros (r & Hr & Hrc). exists r. split; [done|].
    by apply (stored_get_truthy stored stored_faithful r TMDB_ID _ Hid). }
  unfold sync_category.
  destruct (decide (item_id i ∈ (prior_state incremental f sheet_name).2))
    as [Hknown|Hnew]; [|by apply merge_has_every_new_id].
  assert (∃ r, r ∈ (prior_state incremental f sheet_name).1
               ∧ r !! TMDB_ID = Some (item_id i)) as (r & Hr & Hrc).
  { unfold prior_state in *.
    destruct (incremental && path_exists f);
      [|by apply elem_of_empty in Hknown].
    by apply load_existing_rows_ids_from_rows. }
  exists r. split.
  - rewrite merge_closed_form. apply elem_of_app. by left.
  - unfold py_get. by rewrite Hrc.
Qed.

End SecondRun.

Lemma fetch_all_pages_loop_total client_get max_pages fuel page total_pages
    results trace :
  (total_pages ≤ 500)%Z →
  (Z.to_nat (501 - page) < fuel)%nat →
  is_Some (fetch_all_pages_loop fuel client_get max_pages
             page total_pages results trace).
Proof.
  revert page total_pages results trace.
  induction fuel as [|fuel IH]; intros page total_pages results trace Hcap Hfuel;
    [lia|].
  simpl. destruct (page <=? total_pages)%Z eqn:Hle; simpl; [|by eexists].
  apply Z.leb_le in Hle.
  destruct (over_budget max_pages page); [by eexists|].
  destruct (client_get page) as [data|e]; [|by eexists].
  destruct (falsy_data data); [by eexists|].
  destruct data as [d|]; [|by eexists].
  apply IH; [apply capped_total_pages_le|lia].
Qed.

Lemma fetch_fn_total incremental client_get ex_ids mp :
  is_Some (fetch_fn incremental client_get ex_ids mp).
Proof.
  unfold fetch_fn. destruct incremental.
  - apply fetch_incremental_total.
  - unfold fetch_all_pages. apply fetch_all_pages_loop_total; [lia|].
    apply Nat.ltb_lt. vm_compute. reflexivity.
Qed.

Lemma fetch_endpoints_total incremental ex_ids endpoints lists :
  is_Some (fetch_endpoints incremental ex_ids endpoints lists).
Proof.
  revert lists. induction endpoints as [|endpoint endpoints IH]; intros lists; simpl.
  - by eexists.
  - destruct (fetch_fn_total incremental endpoint.1 ex_ids endpoint.2)
      as [[[items|e] t] ->]; [apply IH|by eexists].
Qed.

(** X13: [main] never shrinks a category.  The run of a category always
    comes to an end, and when it ends without an exception its rows start
    with the rows it loaded, unchanged and in order, so there are at least as
    many rows as before. *)
Theorem main_category_extends_the_snapshot incremental_update (f : StoreFile)
    (sheet_name : string) endpoints :
  is_Some (main_category columns incremental_update f sheet_name endpoints)
  ∧ ∀ rows,
      main_category columns incremental_update f sheet_name endpoints
      = Some (Return rows) →
      (prior_state incremental_update f sheet_name).1 `prefix_of` rows
      ∧ length (prior_state incremental_update f sheet_name).1 ≤ length rows.
Proof.
  unfold main_category.
  destruct (fetch_endpoints_total (incremental_update && path_exists f)
              (prior_state incremental_update f sheet_name).2 endpoints [])
    as [[lists|e] ->].
  - split; [by eexists|]. intros rows [= <-].
    pose proof (merge_keeps_existing
                  (prior_state incremental_update f sheet_name).1
                  (prior_state incremental_update f sheet_name).2 lists) as Hpre.
    split; [exact Hpre|]. by apply prefix_length.
  - split; [by eexists|]. done.
Qed.

End RunMore.

Section EndpointsMore.

Lemma get_all_failed env :
  (∀ k, k < 3 → failed (env k)) → (get env).1 = Return None.
Proof.
  intros Hfail. unfold get. simpl seq.
  rewrite !get_loop_failed by (apply Hfail; lia). done.
Qed.

Lemma fetch_incremental_loop_first_fails fuel client_get ex_ids mp :
  client_get 1%Z = Return None →
  ∃ t, fetch_incremental_loop (S fuel) client_get ex_ids mp 1 1 [] []
       = Some (Return [], t).
Proof.
  intros Hget. cbn [fetch_incremental_loop]. simpl.
  destruct (over_budget mp 1); [by eexists|]. rewrite Hget. by eexists.
Qed.

Lemma fetch_all_pages_loop_first_fails fuel client_get mp :
  client_get 1%Z = Return None →
  ∃ t, fetch_all_pages_loop (S fuel) client_get mp 1 1 [] []
       = Some (Return [], t).
Proof.
  intros Hget. cbn [fetch_all_pages_loop]. simpl.
  destruct (over_budget mp 1); [by eexists|]. rewrite Hget. by eexists.
Qed.

(** X14: an endpoint that cannot be reached does not block the others.  If
    every request for page 1 of an endpoint fails (request error, 4xx/5xx
    other than 429, undecodable body), the client gives up after its three
    attempts, the walk of that endpoint yields nothing, and the loop goes on
    with the remaining endpoints as if the endpoint were not there; this
    holds in incremental and in full mode. *)
Theorem fetch_endpoints_skips_unreachable incremental ex_ids
    (remote : Z → nat → Response) (mp : option Z) rest lists :
  (∀ k, k < 3 → failed (remote 1%Z k)) →
  fetch_endpoints incremental ex_ids ((client_get_of remote, mp) :: rest) lists
  = fetch_endpoints incremental ex_ids rest lists.
Proof.
  intros Hfail.
  assert (client_get_of remote 1%Z = Return None) as Hget
    by (by apply get_all_failed).
  cbn [fetch_endpoints]. simpl. unfold fetch_fn, fetch_incremental, fetch_all_pages.
  change 501 with (S 500). generalize 500. intros fuel.
  destruct incremental.
  - destruct (fetch_incremental_loop_first_fails fuel _ ex_ids mp Hget) as [t ->].
    by rewrite app_nil_r.
  - destruct (fetch_all_pages_loop_first_fails fuel _ mp Hget) as [t ->].
    by rewrite app_nil_r.
Qed.

End EndpointsMore.

(** * Further properties of the row counts and of the pipeline cycle *)

Section CountsMore.

Local Open Scope Z_scope.

Lemma count_fold_nonneg (sheets : list (string * option Z)) (m : gmap string Z) :
  (∀ name c, m !! name = Some c → 0 ≤ c) →
  ∀ name c,
    foldl (λ counts sheet,
             <[ sheet.1 := Z.max 0 (max_row_or_1 sheet.2 - 1) ]> counts) m sheets
    !! name = Some c →
    0 ≤ c.
Proof.
  revert m. induction sheets as [|sheet sheets IH]; intros m Hm; simpl; [done|].
  apply IH. intros name c. destruct (decide (sheet.1 = name)) as [->|Hne].
  - rewrite lookup_insert_eq. intros [= <-]. lia.
  - rewrite lookup_insert_ne by done. apply Hm.
Qed.

Lemma count_fold_dom (sheets : list (string * option Z)) (m : gmap string Z) name :
  is_Some (foldl (λ counts sheet,
                    <[ sheet.1 := Z.max 0 (max_row_or_1 sheet.2 - 1) ]> counts)
                 m sheets !! name)
  ↔ is_Some (m !! name) ∨ name ∈ fst <$> sheets.
Proof.
  revert m. induction sheets as [|sheet sheets IH]; intros m.
  - simpl. split; [by left|]. intros [?|Hin]; [done|]. by apply elem_of_nil in Hin.
  - cbn [foldl]. rewrite IH, fmap_cons, elem_of_cons.
    destruct (decide (sheet.1 = name)) as [->|Hne].
    + rewrite lookup_insert_eq. split; [intros _; right; by left|].
      intros _. left. by eexists.
    + rewrite lookup_insert_ne by done. split.
      * intros [?|?]; [by left|right; by right].
      * intros [?|[?|?]]; [by left|congruence|by right].
Qed.

(** X15: the row counts are never negative, whatever [max_row] a sheet
    reports (a missing dimension, 0 or 1 all count as no data row), and the
    counted names are exactly the sheet names of the workbook. *)
Theorem row_counts_are_natural (x : ExcelFile) :
  (∀ name c, _count_excel_rows x !! name = Some c → 0 ≤ c)
  ∧ (∀ sheets name,
       x = ExcelSheets sheets →
       (is_Some (_count_excel_rows x !! name) ↔ name ∈ fst <$> sheets))
  ∧ (∀ name max_row,
       (max_row = None ∨ max_row = Some 0 ∨ max_row = Some 1) →
       _count_excel_rows (ExcelSheets [(name, max_row)]) = {[ name := 0 ]}).
Proof.
  split; [|split].
  - destruct x as [| |sheets]; simpl; try by intros name c.
    apply count_fold_nonneg. by intros name c.
  - intros sheets name ->. simpl. rewrite count_fold_dom.
    split; [|by right]. intros [Hin|?]; [|done].
    rewrite lookup_empty in Hin. by destruct Hin.
  - intros name max_row [->|[->| ->]]; reflexivity.
Qed.

Lemma total_sum_nonneg (old_counts : gmap string Z) (l : list (string * Z)) :
  0 ≤ foldr (λ item acc, Z.max 0 (item.2 - default 0 (old_counts !! item.1)) + acc)
            0 l.
Proof. induction l as [|item l IH]; simpl; lia. Qed.

Lemma total_sum_positive (old_counts : gmap string Z) (l : list (string * Z)) :
  0 < foldr (λ item acc, Z.max 0 (item.2 - default 0 (old_counts !! item.1)) + acc)
            0 l
  ↔ ∃ item, item ∈ l ∧ default 0 (old_counts !! item.1) < item.2.
Proof.
  induction l as [|item l IH]; simpl.
  - split; [lia|]. intros (item & Hin & _). by apply elem_of_nil in Hin.
  - pose proof (total_sum_nonneg old_counts l) as Hl. split.
    + intros Hpos.
      destruct (decide (default 0 (old_counts !! item.1) < item.2)) as [Hlt|Hge].
      * exists item. split; [left|done].
      * assert (0 < foldr (λ item acc,
                            Z.max 0 (item.2 - default 0 (old_counts !! item.1)) + acc)
                         0 l) as Hrest by lia.
        apply IH in Hrest as (it & Hin & Hlt). exists it. split; [by right|done].
    + intros (it & Hin & Hlt). apply elem_of_cons in Hin as [->|Hin]; [lia|].
      assert (0 < foldr (λ item acc,
                          Z.max 0 (item.2 - default 0 (old_counts !! item.1)) + acc)
                       0 l) as Hrest by (apply IH; by exists it).
      lia.
Qed.

(** X18: the number of new rows the cycle reports agrees with the growth
    test: it is never negative, and it is positive exactly when the
    comparison of the two count maps finds a sheet that grew. *)
Theorem total_new_rows_agrees_with_growth (old_counts new_counts : gmap string Z) :
  0 ≤ total_new_rows old_counts new_counts
  ∧ (0 < total_new_rows old_counts new_counts
     ↔ compare_counts old_counts new_counts = true).
Proof.
  split; [apply total_sum_nonneg|].
  unfold total_new_rows. rewrite total_sum_positive, compare_counts_true. split.
  - intros ([sheet count] & Hin & Hlt). apply elem_of_map_to_list in Hin.
    by exists sheet, count.
  - intros (sheet & count & Hin & Hlt). exists (sheet, count).
    split; [by apply elem_of_map_to_list|done].
Qed.

Lemma compare_counts_same (counts : gmap string Z) :
  compare_counts counts counts = false.
Proof.
  apply not_true_is_false. intros (sheet & count & Hin & Hlt)%compare_counts_true.
  rewrite Hin in Hlt. simpl in Hlt. lia.
Qed.

Section CycleMore.

Variable scraper : World → bool * World.

(** X16: the baseline ratchets.  After a cycle that reached the change
    detection, checking the same workbook again reports growth only in the
    degenerate case where no row count could be read (the map is empty, which
    the detector takes for a first run); otherwise it reports none. *)
Theorem unchanged_workbook_reports_no_growth linkvertise (args : Args) (w : World) :
  (scrape_step scraper args w).1 = true →
  skip_lv args = false →
  web_only args = false →
  excel_exists (source_excel (scrape_step scraper args w).2) = true →
  (detect_new_rows
     (row_count_file (run_pipeline_cycle scraper linkvertise args w))
     (source_excel (scrape_step scraper args w).2)).1.1
  = bool_decide (_count_excel_rows (source_excel (scrape_step scraper args w).2) = ∅).
Proof.
  intros Hok Hskip Hweb Hex.
  assert (row_count_file (run_pipeline_cycle scraper linkvertise args w)
          = CountsStored
              (_count_excel_rows (source_excel (scrape_step scraper args w).2)))
    as ->.
  { unfold run_pipeline_cycle. rewrite Hok, Hskip, Hweb, Hex. simpl.
    by destruct (_ || _). }
  simpl. unfold has_new_rows. case_bool_decide; [done|].
  apply compare_counts_same.
Qed.

(** X17: the link generator is started only when growth was detected or
    [--force-lv] is set.  In every other case (the scraper failed, the step
    is disabled by a flag, the source workbook is missing, or no growth
    without [--force-lv]) the outcome of the cycle does not depend on the
    link generator at all. *)
Theorem linkvertise_runs_only_on_growth linkvertise1 linkvertise2
    (args : Args) (w : World) :
  (scrape_step scraper args w).1 = false
  ∨ skip_lv args = true
  ∨ web_only args = true
  ∨ excel_exists (source_excel (scrape_step scraper args w).2) = false
  ∨ ((detect_new_rows (row_count_file (scrape_step scraper args w).2)
                      (source_excel (scrape_step scraper args w).2)).1.1 = false
     ∧ force_lv args = false) →
  run_pipeline_cycle scraper linkvertise1 args w
  = run_pipeline_cycle scraper linkvertise2 args w.
Proof.
  unfold run_pipeline_cycle.
  destruct (scrape_step scraper args w) as [ok w1]. simpl.
  destruct ok; simpl; [|done].
  destruct (skip_lv args); simpl; [done|].
  destruct (web_only args); simpl; [done|].
  destruct (excel_exists (source_excel w1)); simpl; [|done].
  intros [?|[?|[?|[?|[-> ->]]]]]; done.
Qed.

End CycleMore.

End CountsMore.

(** * Properties of the channels *)

Section ChannelsMore.

Variable client_get : pyval → outcome (option Item).

Lemma network_record_id nid (d : Item) :
  truthy (py_get d "id") = true →
  py_get (network_record nid d) NETWORK_ID = py_get d "id".
Proof.
  intros Ht. unfold network_record, NETWORK_ID, py_get.
  rewrite lookup_insert_eq. unfold py_get, py_get_default in *.
  by destruct (d !! "id").
Qed.

Lemma network_details_truthy network_ids detailed rows :
  network_details client_get network_ids detailed = Return rows →
  Forall (λ r, truthy (py_get r NETWORK_ID) = true) detailed →
  Forall (λ r, truthy (py_get r NETWORK_ID) = true) rows.
Proof.
  revert detailed. induction network_ids as [|nid ids IH]; intros detailed; simpl.
  - by intros [= <-].
  - assert (∀ data,
              match data with
              | Some d =>
                  if negb (bool_decide (d = ∅)) && truthy (py_get d "id")
                  then network_details client_get ids (detailed ++ [network_record nid d])
                  else network_details client_get ids detailed
              | None => network_details client_get ids detailed
              end = Return rows →
              Forall (λ r, truthy (py_get r NETWORK_ID) = true) detailed →
              Forall (λ r, truthy (py_get r NETWORK_ID) = true) rows) as Hdata.
    { intros [d|]; [|apply IH].
      destruct (negb (bool_decide (d = ∅))); simpl; [|apply IH].
      destruct (truthy (py_get d "id")) eqn:Ht; [|apply IH].
      intros Hrun Hd. eapply IH; [exact Hrun|].
      apply Forall_app. split; [done|]. constructor; [|done].
      by rewrite network_record_id. }
    destruct nid; [apply IH| |];
      (destruct (client_get _) as [data|e]; [apply Hdata|done]).
Qed.

Lemma network_details_kept network_ids detailed rows :
  network_details client_get network_ids detailed = Return rows →
  ∃ kept new,
    rows = detailed ++ new
    ∧ kept `sublist_of` network_ids
    ∧ Forall2 (λ nid r, nid ≠ PNone
                        ∧ ∃ d, client_get nid = Return (Some d)
                               ∧ truthy (py_get d "id") = true
                               ∧ r = network_record nid d) kept new.
Proof.
  revert detailed. induction network_ids as [|nid ids IH]; intros detailed; simpl.
  - intros [= <-]. exists [], []. rewrite app_nil_r. by repeat split.
  - assert (network_details client_get ids detailed = Return rows →
            ∃ kept new,
              rows = detailed ++ new
              ∧ kept `sublist_of` nid :: ids
              ∧ Forall2 (λ nid r, nid ≠ PNone
                                  ∧ ∃ d, client_get nid = Return (Some d)
                                         ∧ truthy (py_get d "id") = true
                                         ∧ r = network_record nid d) kept new)
      as Hskip.
    { intros (kept & new & -> & Hsub & Hall)%IH.
      exists kept, new. split; [done|]. split; [by apply sublist_cons|done]. }
    assert (nid ≠ PNone →
            ∀ data,
              client_get nid = Return data →
              match data with
              | Some d =>
                  if negb (bool_decide (d = ∅)) && truthy (py_get d "id")
                  then network_details client_get ids (detailed ++ [network_record nid d])
                  else network_details client_get ids detailed
              | None => network_details client_get ids detailed
              end = Return rows →
              ∃ kept new,
                rows = detailed ++ new
                ∧ kept `sublist_of` nid :: ids
                ∧ Forall2 (λ nid r, nid ≠ PNone
                                    ∧ ∃ d, client_get nid = Return (Some d)
                                           ∧ truthy (py_get d "id") = true
                                           ∧ r = network_record nid d) kept new)
      as Hdata.
    { intros Hnid [d|] Hget; [|done].
      destruct (negb (bool_decide (d = ∅))); simpl; [|done].
      destruct (truthy (py_get d "id")) eqn:Ht; [|done].
      intros (kept & new & -> & Hsub & Hall)%IH.
      exists (nid :: kept), (network_record nid d :: new).
      split; [by rewrite <- app_assoc|]. split; [by apply sublist_skip|].
      constructor; [|done]. split; [done|]. by exists d. }
    destruct nid; [done| |];
      (destruct (client_get _) as [data|e] eqn:Hget; [by eapply Hdata|done]).
Qed.

(** X19: every channel record [fetch_networks] builds carries a truthy
    [Network ID], and there is at most one record per network id visited: the
    records are, in visiting order, those of a part of the visited ids, each
    built from a non-[None] id and the object with a truthy ["id"] that the
    client returned for it. *)
Theorem network_details_have_ids network_ids rows :
  network_details client_get network_ids [] = Return rows →
  Forall (λ r, truthy (py_get r NETWORK_ID) = true) rows
  ∧ ∃ kept,
      kept `sublist_of` network_ids
      ∧ Forall2 (λ nid r, nid ≠ PNone
                          ∧ ∃ d, client_get nid = Return (Some d)
                                 ∧ truthy (py_get d "id") = true
                                 ∧ r = network_record nid d) kept rows.
Proof.
  intros Hrun. split.
  - by eapply network_details_truthy.
  - apply network_details_kept in Hrun as (kept & new & -> & Hsub & Hall).
    by exists kept.
Qed.

(** The remote answers a network id with an object that carries that id. *)
Hypothesis remote_echoes_id :
  ∀ nid d, client_get nid = Return (Some d) →
           truthy (py_get d "id") = true → py_get d "id" = nid.

Lemma network_details_unique network_ids detailed rows :
  network_details client_get network_ids detailed = Return rows →
  NoDup ((channel_id <$> detailed) ++ network_ids) →
  NoDup (channel_id <$> rows).
Proof.
  revert detailed. induction network_ids as [|nid ids IH]; intros detailed; simpl.
  - intros [= <-]. by rewrite app_nil_r.
  - intros Hrun Hnd.
    assert (NoDup ((channel_id <$> detailed) ++ ids)) as Hskip.
    { apply NoDup_app in Hnd as (H1 & H2 & H3). apply NoDup_cons in H3 as [_ H3].
      apply NoDup_app. split; [done|]. split; [|done].
      intros v Hv Hin. apply (H2 v Hv). by right. }
    assert (∀ data,
              client_get nid = Return data →
              match data with
              | Some d =>
                  if negb (bool_decide (d = ∅)) && truthy (py_get d "id")
                  then network_details client_get ids (detailed ++ [network_record nid d])
                  else network_details client_get ids detailed
              | None => network_details client_get ids detailed
              end = Return rows →
              NoDup (channel_id <$> rows)) as Hdata.
    { intros [d|] Hget; [|by intros ?%IH].
      destruct (negb (bool_decide (d = ∅))); simpl; [|by intros ?%IH].
      destruct (truthy (py_get d "id")) eqn:Ht; [|by intros ?%IH].
      intros Hrun'. eapply IH; [exact Hrun'|].
      rewrite fmap_app, <- app_assoc. simpl. unfold channel_id at 2.
      by rewrite network_record_id, (remote_echoes_id nid d Hget Ht). }
    destruct nid; [by eapply IH| |];
      (destruct (client_get _) as [data|e] eqn:Hget; [by eapply Hdata|done]).
Qed.

(** X20: the channels sheet keeps its identifiers unique, as long as the
    remote answers every network id with that id.  If the network ids visited
    are pairwise distinct (they come from a set), the header of the prior
    sheet names the identifier column once and the prior rows have pairwise
    distinct identifiers, then so have the merged channel rows. *)
Theorem channels_keep_ids_unique incremental (f : StoreFile) (sheet_name : string)
    network_ids new_channels :
  NoDup network_ids →
  network_details client_get network_ids [] = Return new_channels →
  id_column_unambiguous f sheet_name NETWORK_ID →
  NoDup (channel_id <$> (prior_channels incremental f sheet_name).1) →
  NoDup (channel_id
         <$> merge_channels (prior_channels incremental f sheet_name).1
               (prior_channels incremental f sheet_name).2 new_channels).
Proof.
  intros Hids Hrun Honce Hprior. unfold merge_channels.
  rewrite fmap_app. apply NoDup_app. split; [done|]. split.
  - intros v Hv Hnew.
    apply list_elem_of_fmap in Hv as (r & -> & Hr).
    apply list_elem_of_fmap in Hnew as (c & Hc & Hin).
    apply list_elem_of_filter in Hin as [Hun Hin]. apply Hun.
    unfold channel_id in *.
    assert (truthy (py_get c NETWORK_ID) = true) as Ht.
    { pose proof (network_details_truthy _ _ _ Hrun (Forall_nil_2 _)) as Hall.
      by apply (proj1 (Forall_forall _ _) Hall). }
    rewrite <- Hc. rewrite <- Hc in Ht. unfold prior_channels in *.
    destruct (incremental && path_exists f); [|by apply elem_of_nil in Hr].
    by apply load_existing_rows_cover.
  - apply NoDup_fmap_filter. by eapply network_details_unique.
Qed.

End ChannelsMore.

(** * The properties above on the sample data *)

Lemma fetch_incremental_pages_in_order_witness :
  ∃ q, pages_fetched [Fetch 1; Delay; Fetch 2; Delay; Fetch 3] = seqZ 1 q
       ∧ (0 ≤ q ≤ 500)%Z ∧ within_budget (Some 100%Z) q.
Proof.
  apply (fetch_incremental_pages_in_order five_pages known_ids (Some 100%Z)
           (Return [item_of (PInt 10) "j"; item_of (PInt 11) "k"])).
  reflexivity.
Defined.

Lemma fetch_incremental_returns_the_unknown_witness :
  [item_of (PInt 10) "j"; item_of (PInt 11) "k"]
  = concat (served_unknown five_pages known_ids
            <$> pages_fetched [Fetch 1; Delay; Fetch 2; Delay; Fetch 3])
  ∧ Forall (λ i, item_id i ∉ known_ids)
      [item_of (PInt 10) "j"; item_of (PInt 11) "k"].
Proof.
  apply (fetch_incremental_returns_the_unknown five_pages known_ids (Some 100%Z)).
  reflexivity.
Defined.

Lemma fetch_incremental_keeps_partial_results_witness :
  (∀ data, two_pages_then_failure (1 + Z.of_nat (length [page1; page2])) = Return data →
           falsy_data data = true →
           fetch_incremental two_pages_then_failure known_ids (Some 100%Z)
           = Some (Return (concat (new_on_page known_ids <$> [page1; page2])),
                   walk_trace 1 (length [page1; page2])))
  ∧ (∀ e, two_pages_then_failure (1 + Z.of_nat (length [page1; page2])) = Raise e →
          fetch_incremental two_pages_then_failure known_ids (Some 100%Z)
          = Some (Raise e, walk_trace 1 (length [page1; page2]))).
Proof.
  apply fetch_incremental_keeps_partial_results.
  - intros [|[|k]] d_k; simpl; [intros [= <-]..|done].
    + repeat split; [by left|compute_done].
    + repeat split; [right; compute_done|compute_done].
  - reflexivity.
Defined.

Lemma fetch_all_pages_returns_all_witness :
  ∃ q, pages_fetched [Fetch 1; Delay; Fetch 2; Delay] = seqZ 1 q
       ∧ (0 ≤ q ≤ 500)%Z ∧ within_budget (Some 2%Z) q
       ∧ ∀ l, Return (default [] (page_results page1) ++ default [] (page_results page2))
              = Return l →
              l = concat (served five_pages
                          <$> pages_fetched [Fetch 1; Delay; Fetch 2; Delay]).
Proof.
  apply (fetch_all_pages_returns_all five_pages (Some 2%Z)).
  reflexivity.
Defined.

Lemma fetch_incremental_within_fetch_all_pages_witness :
  [Fetch 1; Delay; Fetch 2; Delay; Fetch 3]
    `prefix_of` [Fetch 1; Delay; Fetch 2; Delay; Fetch 3; Delay; Fetch 4; Delay;
                 Fetch 5; Delay]
  ∧ (known_ids = ∅ → ∀ li lf,
       Return [item_of (PInt 10) "j"; item_of (PInt 11) "k"] = Return li →
       Return (concat (served five_pages <$> [1; 2; 3; 4; 5]%Z)) = Return lf →
       li `prefix_of` lf).
Proof.
  apply (fetch_incremental_within_fetch_all_pages five_pages (Some 100%Z));
    reflexivity.
Defined.

Lemma load_existing_rows_ids_match_rows_witness :
  (∀ v, v ∈ (load_existing_rows sample_store "Movies" TMDB_ID).2 →
        ∃ r, r ∈ (load_existing_rows sample_store "Movies" TMDB_ID).1
             ∧ r !! TMDB_ID = Some v)
  ∧ (∀ r, r ∈ (load_existing_rows sample_store "Movies" TMDB_ID).1 →
          truthy (py_get r TMDB_ID) = true →
          py_get r TMDB_ID ∈ (load_existing_rows sample_store "Movies" TMDB_ID).2).
Proof.
  apply load_existing_rows_ids_match_rows.
  intros i j Hi Hj. destruct i as [|[|[|]]]; destruct j as [|[|[|]]]; done.
Defined.

Lemma load_existing_rows_without_id_column_witness :
  load_existing_rows sample_store "Movies" NETWORK_ID
  = ((λ row, none_to_empty
             <$> dict_zip (header_name <$> [PStr "TMDB ID"; PStr "Title"]) row)
     <$> [ [PInt 1; PStr "A"]; [PNone; PStr "B"]; [PInt 3; PNone] ],
     ∅).
Proof.
  apply load_existing_rows_without_id_column; [reflexivity|compute_done].
Defined.

Lemma load_existing_rows_of_written_sheet_witness :
  (load_existing_rows (FileWorkbook sheets_after_first_run) "Movies" TMDB_ID).1
  = read_back sample_headers
    <$> sync_category no_columns true sample_store "Movies" fetched_batch
  ∧ ∀ v, truthy v = true →
      (v ∈ (load_existing_rows (FileWorkbook sheets_after_first_run) "Movies" TMDB_ID).2
       ↔ TMDB_ID ∈ sample_headers
         ∧ ∃ r, r ∈ sync_category no_columns true sample_store "Movies" fetched_batch
                ∧ py_get r TMDB_ID = v).
Proof.
  apply (load_existing_rows_of_written_sheet stored_as_written);
    [intros v; reflexivity|reflexivity].
Defined.

Lemma second_run_adds_nothing_witness :
  sync_category no_columns true (FileWorkbook sheets_after_first_run) "Movies"
    fetched_batch
  = read_back sample_headers
    <$> sync_category no_columns true sample_store "Movies" fetched_batch.
Proof.
  apply (second_run_adds_nothing no_columns stored_as_written).
  - intros v. reflexivity.
  - intros i j Hi Hj. destruct i as [|[|[|]]]; destruct j as [|[|[|]]]; done.
  - compute_done.
  - reflexivity.
Defined.

Lemma fetch_endpoints_skips_unreachable_witness :
  fetch_endpoints true known_ids
    [(client_get_of (λ _, always_503), Some 100%Z); (five_pages, Some 100%Z)] []
  = fetch_endpoints true known_ids [(five_pages, Some 100%Z)] [].
Proof.
  apply fetch_endpoints_skips_unreachable.
  intros k _. split; [done|]. left. reflexivity.
Defined.

Lemma unchanged_workbook_reports_no_growth_witness :
  (detect_new_rows
     (row_count_file
        (run_pipeline_cycle growing_scraper failing_linkvertise default_args
           stale_world))
     (source_excel (scrape_step growing_scraper default_args stale_world).2)).1.1
  = bool_decide
      (_count_excel_rows
         (source_excel (scrape_step growing_scraper default_args stale_world).2) = ∅).
Proof.
  apply unchanged_workbook_reports_no_growth; reflexivity.
Defined.

Lemma linkvertise_runs_only_on_growth_witness :
  run_pipeline_cycle failing_scraper failing_linkvertise default_args stale_world
  = run_pipeline_cycle failing_scraper (λ w, (true, w)) default_args stale_world.
Proof.
  apply linkvertise_runs_only_on_growth. left. reflexivity.
Defined.

Lemma network_details_have_ids_witness :
  Forall (λ r, truthy (py_get r NETWORK_ID) = true)
    [network_record (PInt 213) {[ "id" := PInt 213 ]};
     network_record (PInt 49) {[ "id" := PInt 49 ]}]
  ∧ ∃ kept,
      kept `sublist_of` visited_networks
      ∧ Forall2 (λ nid r, nid ≠ PNone
                          ∧ ∃ d, echo_remote nid = Return (Some d)
                                 ∧ truthy (py_get d "id") = true
                                 ∧ r = network_record nid d)
          kept
          [network_record (PInt 213) {[ "id" := PInt 213 ]};
           network_record (PInt 49) {[ "id" := PInt 49 ]}].
Proof.
  apply (network_details_have_ids echo_remote). reflexivity.
Defined.

Lemma channels_keep_ids_unique_witness :
  NoDup (channel_id
         <$> merge_channels (prior_channels true FileMissing "Channels").1
               (prior_channels true FileMissing "Channels").2
               [network_record (PInt 213) {[ "id" := PInt 213 ]};
                network_record (PInt 49) {[ "id" := PInt 49 ]}]).
Proof.
  apply (channels_keep_ids_unique echo_remote) with (network_ids := visited_networks).
  - intros nid d [= <-] _. reflexivity.
  - compute_done.
  - reflexivity.
  - done.
  - constructor.
Defined.
